(** * worklog.py: build and commit reports over a time window

    A shallow embedding of [common/Scripts/worklog.py].

    - Python [str] values are sequences of Unicode code points: [list N].
    - Aware [datetime] values are compared by the instant they denote; they
      are integers ([Z], a number of microseconds since the epoch).
    - Everything the script asks of the outside (the clock, the build feed,
      the [git] and [date] processes, the [datetime] parser and printer of
      the standard library) is an oracle of the environment.
    - Effects are threaded through a state-and-exception monad over a world
      that records the clock reads, the requests made, the lines printed
      and the naps taken. *)

From Stdlib Require Import Ascii String DecimalString.
From Stdlib Require Import ZArith NArith Bool Lia Arith.
From Stdlib Require Import List Permutation Sorted.
Import ListNotations.

Set Implicit Arguments.

(* ------------------------------------------------------------------ *)
(** ** Python strings *)

Module PyStr.

Definition str := list N.

(** A literal written in ASCII. *)
Definition lit (s : string) : str :=
  map N_of_ascii (list_ascii_of_string s).

Fixpoint eqb (a b : str) : bool :=
  match a, b with
  | [], [] => true
  | x :: a', y :: b' => N.eqb x y && eqb a' b'
  | _, _ => false
  end.

Lemma eqb_eq a b : eqb a b = true <-> a = b.
Proof.
  revert b. induction a as [| x a IH]; intros [| y b]; simpl;
    try (split; [discriminate | congruence]); [tauto |].
  rewrite andb_true_iff, N.eqb_eq, IH. split.
  - intros (-> & ->). reflexivity.
  - intros H. inversion H. auto.
Qed.

Lemma eqb_refl a : eqb a a = true.
Proof. now apply eqb_eq. Qed.

Lemma eqb_neq a b : eqb a b = false <-> a <> b.
Proof.
  rewrite <- eqb_eq. destruct (eqb a b); split; congruence.
Qed.

(** [a < b] on [str]: lexicographic on code points. *)
Fixpoint ltb (a b : str) : bool :=
  match a, b with
  | _, [] => false
  | [], _ :: _ => true
  | x :: a', y :: b' =>
      if N.ltb x y then true
      else if N.eqb x y then ltb a' b' else false
  end.

(** [c in s] for a one-character [c]. *)
Definition contains (c : N) (s : str) : bool := existsb (N.eqb c) s.

(** [str.isspace] on one code point (the Unicode White_Space characters
    together with the four information separators U+001C..U+001F). *)
Definition isspace (c : N) : bool :=
  ((9 <=? c) && (c <=? 13) || (28 <=? c) && (c <=? 32)
   || (c =? 133) || (c =? 160) || (c =? 5760)
   || (8192 <=? c) && (c <=? 8202)
   || (c =? 8232) || (c =? 8233) || (c =? 8239) || (c =? 8287)
   || (c =? 12288))%N.

Fixpoint lstrip (s : str) : str :=
  match s with
  | [] => []
  | c :: s' => if isspace c then lstrip s' else s
  end.

Definition rstrip (s : str) : str := rev (lstrip (rev s)).

(** [s.strip()] *)
Definition strip (s : str) : str := rstrip (lstrip s).

(** [s.split(sep, maxsplit)] for a one-character [sep]: at most
    [maxsplit] cuts, leftmost first; the last field keeps the rest. *)
Fixpoint split_max (sep : N) (maxsplit : nat) (s : str) : list str :=
  match s with
  | [] => [[]]
  | c :: s' =>
      match maxsplit with
      | O => [s]
      | S m =>
          if N.eqb c sep then [] :: split_max sep m s'
          else match split_max sep maxsplit s' with
               | [] => [[c]]
               | f :: fs => (c :: f) :: fs
               end
      end
  end.

(** [s.split(sep)]: no limit on the number of cuts. *)
Definition split (sep : N) (s : str) : list str :=
  split_max sep (length s) s.

(** [sep.join(parts)] *)
Fixpoint join (sep : str) (parts : list str) : str :=
  match parts with
  | [] => []
  | [p] => p
  | p :: ps => p ++ sep ++ join sep ps
  end.

(** [str(n)] for a natural number, in decimal. *)
Definition of_nat (n : nat) : str :=
  lit (NilEmpty.string_of_uint (Nat.to_uint n)).

Definition colon : N := 58.
Definition LF : N := 10.
Definition RS : N := 30.
Definition ESC : N := 27.

End PyStr.

Import PyStr.

Example split_max_ex :
  split_max colon 2 (lit "foo: bar: baz") = [lit "foo"; lit " bar"; lit " baz"].
Proof. reflexivity. Qed.

Example split_empty : split LF [] = [[]].
Proof. reflexivity. Qed.

Example of_nat_ex : of_nat 0 = lit "0" /\ of_nat 42 = lit "42".
Proof. split; reflexivity. Qed.

(* ------------------------------------------------------------------ *)
(** ** Exceptions, the world and the oracles *)

(** An aware [datetime], as the instant it denotes. *)
Definition datetime := Z.

Inductive exn : Type :=
| ValueError (msg : str)
| TypeError
| IndexError
| OSError
| URLError
| JSONDecodeError
| UnicodeDecodeError.

(** What a call yields: an exception raised, or a value returned. *)
Inductive result (A : Type) : Type :=
| Raise (e : exn)
| Return (a : A).
Arguments Raise {A} e.
Arguments Return {A} a.

(** What [subprocess.Popen(..., stdout=PIPE).stdout] gives once read and
    decoded: the launch, the read or the decoding raises; there is no
    stream; or the text the process wrote. *)
Inductive pipe : Type :=
| PipeRaises (e : exn)
| PipeNone
| PipeText (text : str).

(** The state of the outside, as far as the script changes it. *)
Record World : Type := mkWorld {
  ticks : nat;          (* readings of the clock taken so far *)
  fetches : nat;        (* requests sent to the build feed *)
  spawns : nat;         (* processes launched *)
  stdout : list str;    (* arguments of the calls to the builtin print *)
  naps : list Z         (* arguments of the calls to time.sleep *)
}.

Definition M (A : Type) : Type := World -> result A * World.

Definition ret {A} (a : A) : M A := fun w => (Return a, w).

Definition raise {A} (e : exn) : M A := fun w => (Raise e, w).

Definition bind {A B} (m : M A) (k : A -> M B) : M B :=
  fun w =>
    match m w with
    | (Raise e, w') => (Raise e, w')
    | (Return a, w') => k a w'
    end.

Definition lift {A} (r : result A) : M A := fun w => (r, w).

Declare Scope py_scope.
Delimit Scope py_scope with py.
Notation "x <- m ;; k" := (bind m (fun x => k))
  (at level 100, m at next level, right associativity) : py_scope.
Notation "m ;;; k" := (bind m (fun _ => k))
  (at level 100, right associativity) : py_scope.
Open Scope py_scope.

(** [[f(x) for x in xs]]: left to right, stopping at the first raise. *)
Fixpoint mapM {A B} (f : A -> M B) (xs : list A) : M (list B) :=
  match xs with
  | [] => ret []
  | x :: xs' => y <- f x ;; ys <- mapM f xs' ;; ret (y :: ys)
  end.

(** The builtin [print] with one argument. *)
Definition py_print (line : str) : M unit :=
  fun w => (Return tt,
            mkWorld (ticks w) (fetches w) (spawns w) (stdout w ++ [line]) (naps w)).

(** [time.sleep(secs)] *)
Definition sleep (secs : Z) : M unit :=
  fun w => (Return tt,
            mkWorld (ticks w) (fetches w) (spawns w) (stdout w) (naps w ++ [secs])).

(** [l[i]] *)
Definition index {A} (l : list A) (i : nat) : result A :=
  match nth_error l i with
  | Some a => Return a
  | None => Raise IndexError
  end.

(** Insertion-ordered dictionaries with [str] keys. *)
Module PyDict.
Section Dict.
Variable V : Type.

Definition t := list (str * V).

(** [d[k] = v]: an existing key keeps its place, a new one goes last. *)
Fixpoint set (k : str) (v : V) (d : t) : t :=
  match d with
  | [] => [(k, v)]
  | (k', v') :: d' =>
      if eqb k k' then (k', v) :: d' else (k', v') :: set k v d'
  end.

(** [d.get(k, default)] *)
Fixpoint get (k : str) (default : V) (d : t) : V :=
  match d with
  | [] => default
  | (k', v') :: d' => if eqb k k' then v' else get k default d'
  end.

(** [d.values()] *)
Definition values (d : t) : list V := map snd d.

Definition keys (d : t) : list str := map fst d.
End Dict.
End PyDict.

(* ------------------------------------------------------------------ *)
(** ** class TTY *)

Module TTY.
Definition Reset : str := ESC :: lit "[0m".
Definition Red : str := ESC :: lit "[31m".
Definition Green : str := ESC :: lit "[32m".
Definition Yellow : str := ESC :: lit "[33m".
Definition Blue : str := ESC :: lit "[34m".
Definition White : str := ESC :: lit "[97m".

Definition backslash : N := 92.

Definition url (name ref : str) : str :=
  (ESC :: lit "]8;;") ++ ref ++ [ESC; backslash] ++ name
    ++ (ESC :: lit "]8;;") ++ [ESC; backslash].

(** The label of every link, with the four characters that the source
    file holds between the brackets. *)
Definition arrow : str := [91; 240; 376; 161; 8226; 93]%N.
End TTY.

(* ------------------------------------------------------------------ *)
(** ** The records *)

Record Build : Type := mkBuild {
  id : Z;
  pkg : str;
  version : str;
  release : str;
  b_ref : str;
  tag : str;
  tag_url : str;
  log_url : str;
  status : str;
  builder : str;
  finished : option str
}.

Record Commit : Type := mkCommit {
  ref : str;
  ts : str;
  msg : str;
  author : str
}.

(** The two kinds of [Listable]. *)
Inductive Listable : Type :=
| OfBuild (b : Build)
| OfCommit (c : Commit).

(** The outside of the script. Each oracle is asked with the number of
    earlier requests of its kind, so that no two requests need agree. *)
Record Oracle : Type := mkOracle {
  (** [datetime.now(tz=timezone.utc)], at the n-th reading *)
  clock : nat -> datetime;
  (** [request.urlopen(url)] and [json.load] with the [Build] hook *)
  feed : nat -> result (list Build);
  (** [git log ... --after=start --before=end] *)
  git_log : nat -> datetime -> datetime -> pipe;
  (** [date -u --iso-8601=s --date=text] *)
  date_cmd : nat -> str -> pipe;
  (** [datetime.fromisoformat], up to the instant denoted *)
  fromisoformat : str -> result datetime;
  (** [str(d)] for a [datetime] in UTC *)
  datetime_str : datetime -> str;
  (** [repr(s)] for a [str] *)
  repr : str -> str
}.

(** [datetime.now(tz=timezone.utc)] *)
Definition now (env : Oracle) : M datetime :=
  fun w => (Return (clock env (ticks w)),
            mkWorld (S (ticks w)) (fetches w) (spawns w) (stdout w) (naps w)).

(** [subprocess.Popen(cmd, stdout=PIPE).stdout], with what reading and
    decoding it gives: [None] when there is no stream. *)
Definition popen (out : nat -> pipe) : M (option str) :=
  fun w =>
    let w' := mkWorld (ticks w) (fetches w) (S (spawns w)) (stdout w) (naps w) in
    match out (spawns w) with
    | PipeRaises e => (Raise e, w')
    | PipeNone => (Return None, w')
    | PipeText text => (Return (Some text), w')
    end.

(* ------------------------------------------------------------------ *)
(** ** class Build *)

Module Build_.
Section WithOracle.
Variable env : Oracle.

Definition package (self : Build) : str := pkg self.

Definition date (self : Build) : M datetime :=
  match finished self with
  | None => now env
  | Some f => lift (fromisoformat env f)
  end.

Definition to_md (self : Build) : str :=
  lit "[" ++ pkg self ++ lit " " ++ version self ++ lit "-" ++ release self
    ++ lit "](" ++ tag_url self ++ lit ")".

Definition to_tty (self : Build) : str :=
  (TTY.Green ++ pkg self ++ TTY.Reset ++ lit " " ++ version self ++ lit "-"
     ++ release self ++ lit " ")
    ++ (TTY.Blue ++ lit "[" ++ builder self ++ lit "]" ++ TTY.Reset ++ lit " ")
    ++ TTY.url TTY.arrow (tag_url self).
End WithOracle.
End Build_.

(* ------------------------------------------------------------------ *)
(** ** class Builds *)

Module Builds.
Section WithOracle.
Variable env : Oracle.

(** One request to the feed per access. *)
Definition all : M (list Build) :=
  fun w => (feed env (fetches w),
            mkWorld (ticks w) (S (fetches w)) (spawns w) (stdout w) (naps w)).

(** [{b.pkg: b for b in builds}] *)
Definition by_pkg (builds : list Build) : PyDict.t Build :=
  fold_left (fun d b => PyDict.set (pkg b) b d) builds [].

Definition packages : M (list Build) :=
  builds <- all ;; ret (PyDict.values (by_pkg builds)).

(** [start <= d <= end] *)
Definition within (start end_ d : datetime) : bool :=
  (start <=? d)%Z && (d <=? end_)%Z.

Fixpoint _filter (builds : list Build) (start end_ : datetime)
  : M (list Build) :=
  match builds with
  | [] => ret []
  | b :: rest =>
      d <- Build_.date env b ;;
      kept <- _filter rest start end_ ;;
      ret (if within start end_ d then b :: kept else kept)
  end.

Definition during (start end_ : datetime) : M (list Build) :=
  builds <- all ;; _filter builds start end_.

Definition updates (start end_ : datetime) : M (list Build) :=
  builds <- packages ;; _filter builds start end_.
End WithOracle.
End Builds.

(* ------------------------------------------------------------------ *)
(** ** class Commit *)

Module Commit_.
(** The generated constructor, applied to the unpacked list of fields:
    it takes exactly four arguments. *)
Definition init (fields : list str) : result Commit :=
  match fields with
  | [r; t; m; a] => Return (mkCommit r t m a)
  | _ => Raise TypeError
  end.

Definition from_line (line : str) : result Commit :=
  init (split RS line).

Definition unknown : str := lit "<unknown>".

Definition package (self : Commit) : result str :=
  if negb (contains colon (msg self)) then Return unknown
  else match index (split_max colon 2 (msg self)) 0 with
       | Raise e => Raise e
       | Return part => Return (strip part)
       end.

Definition change (self : Commit) : result str :=
  if negb (contains colon (msg self)) then Return (strip (msg self))
  else match index (split_max colon 2 (msg self)) 1 with
       | Raise e => Raise e
       | Return part => Return (strip part)
       end.

Definition url (self : Commit) : str :=
  lit "https://github.com/getsolus/packages/commit/" ++ ref self.

Definition to_md (self : Commit) : str :=
  lit "[" ++ msg self ++ lit "](" ++ url self ++ lit ")".

Section WithOracle.
Variable env : Oracle.

Definition date (self : Commit) : result datetime :=
  fromisoformat env (ts self).

Definition to_tty (self : Commit) : result str :=
  match date self with
  | Raise e => Raise e
  | Return d =>
  match package self with
  | Raise e => Raise e
  | Return p =>
  match change self with
  | Raise e => Raise e
  | Return c =>
      Return
        ((TTY.Yellow ++ TTY.url (ref self) (url self) ++ TTY.Reset ++ lit " ")
           ++ (datetime_str env d ++ lit " ")
           ++ (TTY.Green ++ p ++ lit ": " ++ TTY.Reset ++ c ++ lit " ")
           ++ (TTY.Blue ++ lit "[" ++ author self ++ lit "]" ++ TTY.Reset ++ lit " ")
           ++ TTY.url TTY.arrow (url self))
  end end end.
End WithOracle.
End Commit_.

(* ------------------------------------------------------------------ *)
(** ** class Listable, over its two subclasses *)

Module Listable_.
Section WithOracle.
Variable env : Oracle.

Definition package (item : Listable) : M str :=
  match item with
  | OfBuild b => ret (Build_.package b)
  | OfCommit c => lift (Commit_.package c)
  end.

Definition date (item : Listable) : M datetime :=
  match item with
  | OfBuild b => Build_.date env b
  | OfCommit c => lift (Commit_.date env c)
  end.

Definition to_md (item : Listable) : M str :=
  match item with
  | OfBuild b => ret (Build_.to_md b)
  | OfCommit c => ret (Commit_.to_md c)
  end.

Definition to_tty (item : Listable) : M str :=
  match item with
  | OfBuild b => ret (Build_.to_tty b)
  | OfCommit c => lift (Commit_.to_tty env c)
  end.
End WithOracle.
End Listable_.

(* ------------------------------------------------------------------ *)
(** ** class Git *)

Module Git.
Section WithOracle.
Variable env : Oracle.

Definition _commits (start end_ : datetime) : M (list str) :=
  out <- popen (fun n => git_log env n start end_) ;;
  match out with
  | None => ret []
  | Some text => ret (split LF (strip text))
  end.

Definition commits (start end_ : datetime) : M (list Commit) :=
  lines <- _commits start end_ ;;
  mapM (fun line => lift (Commit_.from_line line)) lines.

Definition commits_by_pkg (start end_ : datetime)
  : M (PyDict.t (list Commit)) :=
  cs <- commits start end_ ;;
  lift (fold_left
          (fun acc c =>
             match acc with
             | Raise e => Raise e
             | Return d =>
                 match Commit_.package c with
                 | Raise e => Raise e
                 | Return p =>
                     Return (PyDict.set p (PyDict.get p [] d ++ [c]) d)
                 end
             end)
          cs (Return [])).
End WithOracle.
End Git.

(** [parse_date] *)
Definition parse_date (env : Oracle) (date : str) : M datetime :=
  out <- popen (fun n => date_cmd env n date) ;;
  match out with
  | None => raise (ValueError (lit "invalid date: " ++ repr env date))
  | Some text => lift (fromisoformat env (strip text))
  end.

(* ------------------------------------------------------------------ *)
(** ** The builtin [sorted], with keys that are (package, date) pairs *)

Module Sorting.
Definition key : Type := str * datetime.

(** [a < b] on such tuples: the first components that differ decide. *)
Definition key_ltb (a b : key) : bool :=
  if eqb (fst a) (fst b) then (snd a <? snd b)%Z
  else ltb (fst a) (fst b).

Definition key_eqb (a b : key) : bool :=
  eqb (fst a) (fst b) && (snd a =? snd b)%Z.

Section Stable.
Variable A : Type.

(** [x] goes in front of the first element that is not below it. *)
Fixpoint insert (x : key * A) (l : list (key * A)) : list (key * A) :=
  match l with
  | [] => [x]
  | y :: l' =>
      if key_ltb (fst y) (fst x) then y :: insert x l' else x :: y :: l'
  end.

(** A stable sort of the decorated list. The list [sorted] returns is
    fixed by its contract (an ordered, stable rearrangement), so that
    any stable sort stands for it. *)
Definition sort (l : list (key * A)) : list (key * A) :=
  fold_right insert [] l.

(** [sorted(items, key=f)]: every key is computed once, in the order
    of the items, before anything moves. *)
Definition sorted (f : A -> M key) (items : list A) : M (list A) :=
  keys <- mapM f items ;;
  ret (map snd (sort (combine keys items))).
End Stable.
End Sorting.

(* ------------------------------------------------------------------ *)
(** ** class Printer and the script body *)

Record Printer : Type := mkPrinter {
  start : datetime;
  end_ : datetime
}.

(** What [parser.parse_args()] returns. *)
Record Namespace : Type := mkNamespace {
  command : str;
  after : str;
  before : str;
  format : str;
  sort : bool;
  follow : bool
}.

Module Printer_.
Section WithOracle.
Variable env : Oracle.

Definition init (after before : str) : M Printer :=
  s <- parse_date env after ;;
  e <- parse_date env before ;;
  ret (mkPrinter s e).

Definition unsupported_kind (kind : str) : exn :=
  ValueError (lit "unsupported log kind: " ++ kind).

Definition unsupported_format (fmt : str) : exn :=
  ValueError (lit "unsupported format: " ++ fmt).

Definition _items (self : Printer) (kind : str) : M (list Listable) :=
  if eqb kind (lit "builds") then
    bs <- Builds.during env (start self) (end_ self) ;; ret (map OfBuild bs)
  else if eqb kind (lit "updates") then
    bs <- Builds.updates env (start self) (end_ self) ;; ret (map OfBuild bs)
  else if eqb kind (lit "commits") then
    cs <- Git.commits env (start self) (end_ self) ;; ret (map OfCommit cs)
  else raise (unsupported_kind kind).

Definition _print (items : list Listable) (fmt : str) : M unit :=
  lines <-
    (if eqb fmt (lit "tty") then mapM (Listable_.to_tty env) items
     else if eqb fmt (lit "md") then
       mapM (fun item => s <- Listable_.to_md item ;; ret (lit "- " ++ s)) items
     else raise (unsupported_format fmt)) ;;
  if (0 <? length items)%nat then py_print (join [LF] lines) else ret tt.

(** [lambda item: (item.package, item.date)] *)
Definition sort_key (item : Listable) : M Sorting.key :=
  p <- Listable_.package item ;;
  d <- Listable_.date env item ;;
  ret (p, d).

(** The count line names the command of the global [cli_args]. *)
Definition count_line (cli_args : Namespace) (n : nat) : str :=
  of_nat n ++ lit " " ++ command cli_args ++ lit ":".

Definition print (cli_args : Namespace) (self : Printer)
    (kind fmt : str) (sort : bool) : M unit :=
  items <- _items self kind ;;
  items <- (if sort then Sorting.sorted sort_key items else ret items) ;;
  py_print (count_line cli_args (length items)) ;;;
  _print items fmt.

(** One turn of the loop of [follow]. *)
Definition follow_cycle (self : Printer) (kind fmt : str) : M Printer :=
  e <- now env ;;
  let self := mkPrinter (start self) e in
  items <- _items self kind ;;
  _print items fmt ;;;
  let self := mkPrinter (end_ self) (end_ self) in
  sleep 10 ;;;
  ret self.

(** [follow] never returns; its first [cycles] turns. *)
Fixpoint follow (cycles : nat) (self : Printer) (kind fmt : str)
  : M Printer :=
  match cycles with
  | O => ret self
  | S n => self <- follow_cycle self kind fmt ;; follow n self kind fmt
  end.

(** The body under [if __name__ == '__main__'], after [parse_args];
    in follow mode, its first [cycles] turns. *)
Definition main (cycles : nat) (cli_args : Namespace) : M unit :=
  let 'mkNamespace command after before format sort follow_mode := cli_args in
  printer <- init after before ;;
  if follow_mode then follow cycles printer command format ;;; ret tt
  else print cli_args printer command format sort.
End WithOracle.
End Printer_.

(** The values [argparse] lets through for [command] and [--format]. *)
Definition command_choices : list str :=
  [lit "builds"; lit "updates"; lit "commits"].

Definition format_choices : list str := [lit "md"; lit "tty"].

(* ------------------------------------------------------------------ *)
(** ** A sample environment, to run the script on *)

Module Sample.
Definition digit (c : N) : option Z :=
  if ((48 <=? c) && (c <=? 57))%N then Some (Z.of_N c - 48)%Z else None.

Fixpoint number (acc : Z) (s : str) : option Z :=
  match s with
  | [] => Some acc
  | c :: s' =>
      match digit c with
      | Some d => number (acc * 10 + d)%Z s'
      | None => None
      end
  end.

(** Days from 1970-01-01 to a date of the proleptic Gregorian calendar. *)
Definition days_from_civil (y m d : Z) : Z :=
  (let y := if m <=? 2 then y - 1 else y in
   let era := y / 400 in
   let yoe := y - era * 400 in
   let doy := (153 * (if 2 <? m then m - 3 else m + 9) + 2) / 5 + d - 1 in
   let doe := yoe * 365 + yoe / 4 - yoe / 100 + doy in
   era * 146097 + doe - 719468)%Z.

(** The texts [YYYY-MM-DDTHH:MM:SS+00:00] that [date -u --iso-8601=s]
    writes, in microseconds since the epoch; other texts are refused. *)
Definition fromisoformat (s : str) : result datetime :=
  let bad := Raise (ValueError (lit "Invalid isoformat string")) in
  match split 84 s with
  | [day; rest] =>
      match split 45 day, split 43 rest with
      | [y; m; d], [time; zone] =>
          match split colon time with
          | [hh; mm; ss] =>
              match number 0 y, number 0 m, number 0 d,
                    number 0 hh, number 0 mm, number 0 ss with
              | Some y, Some m, Some d, Some hh, Some mm, Some ss =>
                  if eqb zone (lit "00:00") then
                    Return ((((days_from_civil y m d * 24 + hh) * 60 + mm)
                               * 60 + ss) * 1000000)%Z
                  else bad
              | _, _, _, _, _, _ => bad
              end
          | _ => bad
          end
      | _, _ => bad
      end
  | _ => bad
  end.

Definition of_Z (z : Z) : str := lit (NilZero.string_of_int (Z.to_int z)).

(** Stands for [str(d)]: the instant, as a number of microseconds. *)
Definition datetime_str (d : datetime) : str := of_Z d.

(** [repr] of a text free of quotes and escapes. *)
Definition repr (s : str) : str := lit "'" ++ s ++ lit "'".

Definition t0 : str := lit "2024-01-01T00:00:00+00:00".
Definition t1 : str := lit "2024-01-02T00:00:00+00:00".
Definition t2 : str := lit "2024-01-03T00:00:00+00:00".
Definition t3 : str := lit "2024-01-04T00:00:00+00:00".

Definition i0 : datetime := 1704067200000000%Z.
Definition day : Z := 86400000000%Z.
Definition second : Z := 1000000%Z.

Definition build (n : Z) (name ver : string) (fin : option str) : Build :=
  mkBuild n (lit name) (lit ver) (lit "1") (lit "abc123") (lit "tag")
    (lit "https://example.org/tag") (lit "https://example.org/log")
    (lit "OK") (lit "builder-1") fin.

(** [date] answers the two bounds asked of it, whatever their wording. *)
Definition date_cmd (n : nat) (text : str) : pipe :=
  PipeText ((if Nat.eqb n 0 then t0 else t3) ++ [LF]).

(** A clock that starts on 2024-01-02 and gains a second per reading. *)
Definition clock (n : nat) : datetime :=
  (i0 + day + Z.of_nat n * second)%Z.

Definition env (builds : result (list Build)) (log : pipe) : Oracle :=
  mkOracle clock (fun _ => builds) (fun _ _ _ => log) date_cmd
    fromisoformat datetime_str repr.

Definition w0 : World := mkWorld 0 0 0 [] [].

Definition nano70 : Build := build 1 "nano" "7.0" (Some t1).
Definition vim90 : Build := build 2 "vim" "9.0" (Some t2).
Definition nano71 : Build := build 3 "nano" "7.1" None.
Definition vim91 : Build :=
  build 4 "vim" "9.1" (Some (lit "2024-01-09T00:00:00+00:00")).

Definition builds : list Build := [nano70; vim90; nano71; vim91].

(** The first four days of 2024. *)
Definition days4 : Printer := mkPrinter i0 (i0 + 3 * day)%Z.

Definition args (cmd fmt : string) (sort follow : bool) : Namespace :=
  mkNamespace (lit cmd) (lit "2024-01-01") (lit "2024-01-04") (lit fmt)
    sort follow.
End Sample.

Example sample_parse :
  Sample.fromisoformat Sample.t0 = Return Sample.i0
  /\ Sample.fromisoformat (lit "1970-01-01T00:00:00+00:00") = Return 0%Z
  /\ Sample.fromisoformat (lit "yesterday")
     = Raise (ValueError (lit "Invalid isoformat string")).
Proof. repeat split; vm_compute; reflexivity. Qed.

(* ------------------------------------------------------------------ *)
(** ** The vocabulary of the properties *)

(** A relation between the world before and the world after that every
    run of a computation maintains. *)
Definition keeps (R : World -> World -> Prop) {A} (m : M A) : Prop :=
  forall w r w', m w = (r, w') -> R w w'.

(** The clock has been read, and nothing else happened. *)
Definition read_clock (w w' : World) : Prop :=
  (ticks w <= ticks w')%nat /\ fetches w' = fetches w
  /\ spawns w' = spawns w /\ stdout w' = stdout w /\ naps w' = naps w.

(** Nothing was printed and nobody slept. *)
Definition silent (w w' : World) : Prop :=
  (ticks w <= ticks w')%nat /\ stdout w' = stdout w /\ naps w' = naps w.

(** Nobody slept. *)
Definition awake (w w' : World) : Prop :=
  (ticks w <= ticks w')%nat /\ naps w' = naps w.

(** The effective date of a build, were the clock read for the [n]-th
    time when it is asked. *)
Definition effective_date (env : Oracle) (n : nat) (b : Build)
  : result datetime :=
  match finished b with
  | None => Return (clock env n)
  | Some f => fromisoformat env f
  end.

(** [l1] is [l2] with some elements left out. *)
Inductive Subseq {A : Type} : list A -> list A -> Prop :=
| Subseq_nil : Subseq [] []
| Subseq_skip x l1 l2 : Subseq l1 l2 -> Subseq l1 (x :: l2)
| Subseq_take x l1 l2 : Subseq l1 l2 -> Subseq (x :: l1) (x :: l2).

(** The names of a list, each at the place where it is first met. *)
Fixpoint first_seen (names : list str) : list str :=
  match names with
  | [] => []
  | n :: rest => n :: filter (fun m => negb (eqb m n)) (first_seen rest)
  end.

(** Package name first, date second, both ascending. *)
Definition key_le (a b : Sorting.key) : Prop :=
  ltb (fst a) (fst b) = true \/ (fst a = fst b /\ (snd a <= snd b)%Z).

(** The order of the decorated items is that of their keys. *)
Definition by_key {A} (x y : Sorting.key * A) : Prop :=
  key_le (fst x) (fst y).

(** The items of one key, in the order they have in [l]. *)
Definition of_key {A} (k : Sorting.key) (l : list (Sorting.key * A))
  : list (Sorting.key * A) :=
  filter (fun x => Sorting.key_eqb (fst x) k) l.

(** The text before the first [sep] of [s]. *)
Fixpoint before_first (sep : N) (s : str) : str :=
  match s with
  | [] => []
  | c :: s' => if N.eqb c sep then [] else c :: before_first sep s'
  end.

(** The text after the first [sep] of [s]. *)
Fixpoint after_first (sep : N) (s : str) : str :=
  match s with
  | [] => []
  | c :: s' => if N.eqb c sep then s' else after_first sep s'
  end.

(** The environment [env] with another clock. *)
Definition with_clock (env : Oracle) (c : nat -> datetime) : Oracle :=
  mkOracle c (feed env) (git_log env) (date_cmd env) (fromisoformat env)
    (datetime_str env) (repr env).

(** The line of a build in the format [fmt]. *)
Definition item_line (fmt : str) (b : Build) : str :=
  if eqb fmt (lit "tty") then Build_.to_tty b else lit "- " ++ Build_.to_md b.

(** The claim C5 as it is worded: at every turn of [follow], the instant
    at which the turn's window ends is inside that window and inside the
    window of the next turn. *)
Definition boundary_in_both (env : Oracle) (self0 : Printer)
    (kind fmt : str) (w0 : World) : Prop :=
  forall i self w self' w',
    Printer_.follow env i self0 kind fmt w0 = (Return self, w) ->
    Printer_.follow_cycle env self kind fmt w = (Return self', w') ->
    Builds.within (start self) (clock env (ticks w)) (clock env (ticks w))
    = true
    /\ Builds.within (start self') (clock env (ticks w'))
         (clock env (ticks w)) = true.

(** The four fields of a commit, and the line of the history query that
    holds them. *)
Definition fields (c : Commit) : list str := [ref c; ts c; msg c; author c].

Definition record_line (c : Commit) : str := join [RS] (fields c).

(** The text [s] holds no [sep]. *)
Definition free_of (sep : N) (s : str) : Prop := contains sep s = false.

(** The package and the change that a subject names. *)
Definition package_name (c : Commit) : str :=
  if contains colon (msg c) then strip (before_first colon (msg c))
  else lit "<unknown>".

Definition change_text (c : Commit) : str :=
  if contains colon (msg c)
  then strip (before_first colon (after_first colon (msg c)))
  else strip (msg c).

(** The commits of a history, gathered under their packages. *)
Definition add_commit (d : PyDict.t (list Commit)) (c : Commit)
  : PyDict.t (list Commit) :=
  PyDict.set (package_name c) (PyDict.get (package_name c) [] d ++ [c]) d.

Definition groups (cs : list Commit) : PyDict.t (list Commit) :=
  fold_left add_commit cs [].

(** The date of a build that has one, when it can be read. *)
Definition fixed_date (env : Oracle) (b : Build) : option datetime :=
  match finished b with
  | Some f =>
      match fromisoformat env f with
      | Return d => Some d
      | Raise _ => None
      end
  | None => None
  end.

(** The build has a date, and the date is within the bounds. *)
Definition in_window (env : Oracle) (s e : datetime) (b : Build) : bool :=
  match fixed_date env b with
  | Some d => Builds.within s e d
  | None => false
  end.

Definition unfinished (b : Build) : bool :=
  match finished b with
  | None => true
  | Some _ => false
  end.

(** No build after [b] in the feed has the package of [b]. *)
Definition latest_in (builds : list Build) (b : Build) : Prop :=
  exists before after,
    builds = before ++ b :: after
    /\ forall b', In b' after -> pkg b' <> pkg b.

(** The line of an item in the format [md]. *)
Definition md_line (item : Listable) : str :=
  lit "- " ++ match item with
              | OfBuild b => Build_.to_md b
              | OfCommit c => Commit_.to_md c
              end.

(** The world [w] after [n] more launches of a process. *)
Definition spawned (n : nat) (w : World) : World :=
  mkWorld (ticks w) (fetches w) (n + spawns w) (stdout w) (naps w).

(** The sort key of an item, were the clock read for the [n]-th time
    when its date is asked: its package, then its effective date. *)
Definition key_at (env : Oracle) (n : nat) (item : Listable)
  : result Sorting.key :=
  match item with
  | OfBuild b =>
      match effective_date env n b with
      | Return d => Return (pkg b, d)
      | Raise e => Raise e
      end
  | OfCommit c =>
      match fromisoformat env (ts c) with
      | Return d => Return (package_name c, d)
      | Raise e => Raise e
      end
  end.

(** The sort key of an item whose date does not depend on the clock. *)
Definition fixed_key (env : Oracle) (item : Listable) : option Sorting.key :=
  match item with
  | OfBuild b =>
      match fixed_date env b with
      | Some d => Some (pkg b, d)
      | None => None
      end
  | OfCommit c =>
      match fromisoformat env (ts c) with
      | Return d => Some (package_name c, d)
      | Raise _ => None
      end
  end.

(** The line of an item in the format [fmt]. *)
Definition line_of (env : Oracle) (fmt : str) (item : Listable) : result str :=
  if eqb fmt (lit "tty") then
    match item with
    | OfBuild b => Return (Build_.to_tty b)
    | OfCommit c => Commit_.to_tty env c
    end
  else if eqb fmt (lit "md") then Return (md_line item)
  else Raise (Printer_.unsupported_format fmt).

(** A sample history: three commits, and what [git] writes for them. *)
Module SampleLog.
Definition c1 : Commit :=
  mkCommit (lit "abc123") Sample.t1 (lit "nano: fix crash") (lit "Ada").
Definition c2 : Commit :=
  mkCommit (lit "abd456") Sample.t2 (lit "vim: bump to 9.1") (lit "Bob").
Definition c3 : Commit :=
  mkCommit (lit "abe789") Sample.t2 (lit "nano: update to 7.1") (lit "Ada").

Definition commits : list Commit := [c1; c2; c3].

Definition text : str := join [LF] (map record_line commits) ++ [LF].

Definition env : Oracle := Sample.env (Return []) (PipeText text).

(** A feed of builds that are all finished. *)
Definition finished_builds : list Build :=
  [Sample.nano70; Sample.vim90; Sample.vim91].

(** A feed that cannot be reached. *)
Definition offline : Oracle := Sample.env (Raise URLError) PipeNone.
End SampleLog.

(* ------------------------------------------------------------------ *)
(** * Properties *)

(** ** Running a computation *)

Lemma bind_Return {A B} (m : M A) (k : A -> M B) w b w' :
  bind m k w = (Return b, w') ->
  exists a w1, m w = (Return a, w1) /\ k a w1 = (Return b, w').
Proof.
  unfold bind. destruct (m w) as [[e | a] w1]; intros H.
  - discriminate.
  - now exists a, w1.
Qed.

Lemma bind_run {A B} (m : M A) (k : A -> M B) w a w1 :
  m w = (Return a, w1) -> bind m k w = k a w1.
Proof. unfold bind. now intros ->. Qed.

Lemma mapM_length {A B} (f : A -> M B) xs :
  forall w ys w', mapM f xs w = (Return ys, w') -> length ys = length xs.
Proof.
  induction xs as [| x xs IH]; simpl; intros w ys w' H.
  - inversion H. reflexivity.
  - apply bind_Return in H as (y & w1 & _ & H).
    apply bind_Return in H as (ys' & w2 & Hys & H).
    inversion H. subst. simpl. f_equal. eauto.
Qed.

Section Frame.
Variable R : World -> World -> Prop.
Hypothesis R_refl : forall w, R w w.
Hypothesis R_trans : forall w1 w2 w3, R w1 w2 -> R w2 w3 -> R w1 w3.

Lemma keeps_ret {A} (a : A) : keeps R (ret a).
Proof. intros w r w' H. inversion H. apply R_refl. Qed.

Lemma keeps_raise {A} e : keeps R (@raise A e).
Proof. intros w r w' H. inversion H. apply R_refl. Qed.

Lemma keeps_lift {A} (r : result A) : keeps R (lift r).
Proof. intros w r' w' H. inversion H. apply R_refl. Qed.

Lemma keeps_bind {A B} (m : M A) (k : A -> M B) :
  keeps R m -> (forall a, keeps R (k a)) -> keeps R (bind m k).
Proof.
  intros Hm Hk w r w'. unfold bind.
  destruct (m w) as [[e | a] w1] eqn:E; intros H.
  - inversion H. subst. eapply Hm, E.
  - eapply R_trans; [eapply Hm, E | eapply Hk, H].
Qed.

Lemma keeps_mapM {A B} (f : A -> M B) xs :
  (forall x, keeps R (f x)) -> keeps R (mapM f xs).
Proof.
  intros Hf. induction xs as [| x xs IH]; simpl.
  - apply keeps_ret.
  - apply keeps_bind; [apply Hf |]. intros y.
    apply keeps_bind; [apply IH |]. intros ys. apply keeps_ret.
Qed.
End Frame.

Lemma read_clock_refl w : read_clock w w.
Proof. unfold read_clock. auto. Qed.

Lemma read_clock_trans w1 w2 w3 :
  read_clock w1 w2 -> read_clock w2 w3 -> read_clock w1 w3.
Proof. unfold read_clock. intuition (try congruence; lia). Qed.

Lemma silent_refl w : silent w w.
Proof. unfold silent. auto. Qed.

Lemma silent_trans w1 w2 w3 : silent w1 w2 -> silent w2 w3 -> silent w1 w3.
Proof. unfold silent. intuition (try congruence; lia). Qed.

Lemma read_clock_silent w w' : read_clock w w' -> silent w w'.
Proof. unfold read_clock, silent. tauto. Qed.

Lemma keeps_weaken (R S : World -> World -> Prop) {A} (m : M A) :
  (forall w w', R w w' -> S w w') -> keeps R m -> keeps S m.
Proof. intros HRS Hm w r w' H. eapply HRS, Hm, H. Qed.

(** ** What each request does to the world *)

Lemma now_reads env : keeps read_clock (now env).
Proof.
  intros w r w' H. inversion H. unfold read_clock. simpl. auto with arith.
Qed.

Lemma popen_silent out : keeps silent (popen out).
Proof.
  intros w r w'. unfold popen.
  destruct (out (spawns w)); intros H; inversion H;
    unfold silent; simpl; auto.
Qed.

Lemma all_silent env : keeps silent (Builds.all env).
Proof.
  intros w r w' H. inversion H. unfold silent. simpl. auto.
Qed.

Lemma date_run env b w :
  exists w', Build_.date env b w = (effective_date env (ticks w) b, w')
             /\ read_clock w w'.
Proof.
  unfold Build_.date, effective_date. destruct (finished b).
  - exists w. split; [reflexivity | apply read_clock_refl].
  - exists (snd (now env w)). split; [reflexivity |].
    apply (@now_reads env w (fst (now env w))). reflexivity.
Qed.

Lemma date_reads env b : keeps read_clock (Build_.date env b).
Proof.
  intros w r w' H. destruct (date_run env b w) as (w1 & E & Hr).
  rewrite E in H. inversion H. now subst.
Qed.

Lemma filter_reads env builds s e :
  keeps read_clock (Builds._filter env builds s e).
Proof.
  induction builds as [| b rest IH]; simpl.
  - apply keeps_ret, read_clock_refl.
  - apply keeps_bind; [apply read_clock_trans | apply date_reads |].
    intros d. apply keeps_bind; [apply read_clock_trans | exact IH |].
    intros kept. apply keeps_ret, read_clock_refl.
Qed.

Lemma Subseq_In {A} (l1 l2 : list A) :
  Subseq l1 l2 -> forall x, In x l1 -> In x l2.
Proof.
  induction 1; simpl; intros y Hy; auto.
  destruct Hy; auto.
Qed.

Lemma Subseq_map {A B} (f : A -> B) (l1 l2 : list A) :
  Subseq l1 l2 -> Subseq (map f l1) (map f l2).
Proof. induction 1; simpl; constructor; assumption. Qed.

Lemma Subseq_NoDup {A} (l1 l2 : list A) :
  Subseq l1 l2 -> NoDup l2 -> NoDup l1.
Proof.
  induction 1; intros Hn.
  - constructor.
  - inversion Hn. auto.
  - inversion Hn as [| ? ? Hx Hl]. subst. constructor; auto.
    intros Hin. apply Hx. eapply Subseq_In; eauto.
Qed.

(** Whatever [_filter] keeps, it has seen within the bounds. *)
Lemma filter_sound env s e builds :
  forall w items w',
    Builds._filter env builds s e w = (Return items, w') ->
    Subseq items builds
    /\ forall b, In b items ->
         exists n d, (ticks w <= n <= ticks w')%nat
                     /\ effective_date env n b = Return d
                     /\ (s <= d <= e)%Z.
Proof.
  induction builds as [| b rest IH]; simpl; intros w items w' H.
  - inversion H. subst. split; [constructor | intros b []].
  - apply bind_Return in H as (d & w1 & Hd & H).
    apply bind_Return in H as (kept & w2 & Hk & H).
    inversion H. subst w2 items. clear H.
    destruct (date_run env b w) as (w1' & E & Hr1).
    rewrite E in Hd. inversion Hd as [[Hd' Hw]]. subst w1'. clear Hd.
    assert (Hr2 : read_clock w1 w') by (eapply filter_reads; exact Hk).
    destruct (IH _ _ _ Hk) as (Hsub & Hin).
    assert (Hrest : forall b0, In b0 kept ->
              exists n d0, (ticks w <= n <= ticks w')%nat
                           /\ effective_date env n b0 = Return d0
                           /\ (s <= d0 <= e)%Z).
    { intros b0 Hb0. destruct (Hin _ Hb0) as (n & d0 & Hn & Hd0 & Hb).
      exists n, d0. destruct Hr1 as (? & _). repeat split; try tauto; lia. }
    destruct (Builds.within s e d) eqn:W.
    + split; [now constructor |]. intros b0 [<- | Hb0]; auto.
      exists (ticks w), d. unfold Builds.within in W.
      apply andb_prop in W as (W1 & W2).
      apply Z.leb_le in W1. apply Z.leb_le in W2.
      destruct Hr1 as (? & _). destruct Hr2 as (? & _).
      repeat split; auto; lia.
    + split; [now constructor | assumption].
Qed.

(** ** The dictionary of the latest builds *)

Lemma existsb_eqb_In (k : str) (l : list str) :
  existsb (eqb k) l = true <-> In k l.
Proof.
  rewrite existsb_exists. split.
  - intros (x & Hx & E). apply eqb_eq in E. now subst.
  - intros H. exists k. split; [assumption | apply eqb_refl].
Qed.

Lemma first_seen_In (l : list str) x : In x (first_seen l) <-> In x l.
Proof.
  induction l as [| n l IH]; simpl; [tauto |].
  rewrite filter_In, IH. split.
  - tauto.
  - intros [-> | H]; [now left |].
    destruct (eqb x n) eqn:E.
    + apply eqb_eq in E. now left.
    + right. now split.
Qed.

Lemma first_seen_snoc (l : list str) n :
  first_seen (l ++ [n]) =
  if existsb (eqb n) l then first_seen l else first_seen l ++ [n].
Proof.
  induction l as [| a l IH]; simpl; [reflexivity |].
  rewrite IH. destruct (eqb n a) eqn:E; simpl.
  - apply eqb_eq in E. subst a.
    destruct (existsb (eqb n) l); [reflexivity |].
    rewrite filter_app. simpl. rewrite eqb_refl. simpl.
    now rewrite app_nil_r.
  - destruct (existsb (eqb n) l); [reflexivity |].
    rewrite filter_app. simpl. rewrite E. reflexivity.
Qed.

Section DictFacts.
Variable V : Type.
Implicit Types (d : PyDict.t V) (k : str) (v : V).

Lemma keys_set k v d :
  PyDict.keys (PyDict.set k v d) =
  if existsb (eqb k) (PyDict.keys d) then PyDict.keys d
  else PyDict.keys d ++ [k].
Proof.
  induction d as [| [k' v'] d IH]; simpl; [reflexivity |].
  destruct (eqb k k') eqn:E; simpl; [reflexivity |].
  unfold PyDict.keys in *. rewrite IH.
  now destruct (existsb (eqb k) (map fst d)).
Qed.

Lemma NoDup_keys_set k v d :
  NoDup (PyDict.keys d) -> NoDup (PyDict.keys (PyDict.set k v d)).
Proof.
  intros Hn. rewrite keys_set.
  destruct (existsb (eqb k) (PyDict.keys d)) eqn:E; [assumption |].
  apply NoDup_app; auto.
  - repeat constructor. simpl. tauto.
  - intros x Hx [<- | []].
    apply existsb_eqb_In in Hx. congruence.
Qed.

Lemma In_set k v d k' v' :
  NoDup (PyDict.keys d) ->
  In (k', v') (PyDict.set k v d) ->
  (k' = k /\ v' = v) \/ (k' <> k /\ In (k', v') d).
Proof.
  induction d as [| [k0 v0] d IH]; simpl; intros Hn H.
  - destruct H as [H | []]. inversion H. now left.
  - inversion Hn as [| ? ? Hk0 Hd]. subst.
    destruct (eqb k k0) eqn:E.
    + apply eqb_eq in E. subst k0. destruct H as [H | H].
      * inversion H. now left.
      * right. split; [| now right].
        intros ->. apply Hk0. apply (in_map fst) in H. exact H.
    + apply eqb_neq in E. destruct H as [H | H].
      * inversion H. subst. right. split; [congruence | now left].
      * destruct (IH Hd H) as [? | (? & ?)]; [now left |].
        right. split; [assumption | now right].
Qed.
End DictFacts.

Lemma by_pkg_snoc builds b :
  Builds.by_pkg (builds ++ [b]) = PyDict.set (pkg b) b (Builds.by_pkg builds).
Proof. unfold Builds.by_pkg. now rewrite fold_left_app. Qed.

Lemma by_pkg_keys builds :
  PyDict.keys (Builds.by_pkg builds) = first_seen (map pkg builds).
Proof.
  induction builds as [| b builds IH] using rev_ind; [reflexivity |].
  rewrite by_pkg_snoc, keys_set, map_app. simpl map.
  rewrite first_seen_snoc, IH.
  destruct (existsb (eqb (pkg b)) (first_seen (map pkg builds))) eqn:E1,
           (existsb (eqb (pkg b)) (map pkg builds)) eqn:E2; try reflexivity.
  - assert (H : In (pkg b) (map pkg builds))
      by (apply first_seen_In, existsb_eqb_In; exact E1).
    apply existsb_eqb_In in H. congruence.
  - assert (H : In (pkg b) (first_seen (map pkg builds)))
      by (apply first_seen_In, existsb_eqb_In; exact E2).
    apply existsb_eqb_In in H. congruence.
Qed.

Lemma by_pkg_NoDup builds : NoDup (PyDict.keys (Builds.by_pkg builds)).
Proof.
  induction builds as [| b builds IH] using rev_ind.
  - constructor.
  - rewrite by_pkg_snoc. now apply NoDup_keys_set.
Qed.

(** Every entry of the dictionary holds, under its own name, the build
    after which the feed has no other of that name. *)
Lemma by_pkg_latest builds :
  forall k b, In (k, b) (Builds.by_pkg builds) ->
    pkg b = k
    /\ exists before after,
         builds = before ++ b :: after
         /\ forall b', In b' after -> pkg b' <> pkg b.
Proof.
  induction builds as [| b0 builds IH] using rev_ind; intros k b H.
  - destruct H.
  - rewrite by_pkg_snoc in H.
    apply In_set in H; [| apply by_pkg_NoDup].
    destruct H as [(-> & ->) | (Hk & H)].
    + split; [reflexivity |]. exists builds, []. split; [reflexivity |].
      intros b' [].
    + destruct (IH _ _ H) as (Hp & before & after & -> & Hafter).
      split; [assumption |]. exists before, (after ++ [b0]). split.
      * now rewrite <- app_assoc.
      * intros b' Hb'. apply in_app_or in Hb' as [Hb' | [<- | []]]; auto.
        congruence.
Qed.

Lemma packages_values_pkg builds :
  map pkg (PyDict.values (Builds.by_pkg builds)) = first_seen (map pkg builds).
Proof.
  rewrite <- by_pkg_keys. unfold PyDict.values, PyDict.keys.
  rewrite map_map. apply map_ext_in. intros [k b] H. simpl.
  now destruct (by_pkg_latest _ _ _ H).
Qed.

(** ** The order of the keys *)

Lemma ltb_irrefl (a : str) : ltb a a = false.
Proof.
  induction a as [| x a IH]; simpl; [reflexivity |].
  now rewrite N.ltb_irrefl, N.eqb_refl.
Qed.

Lemma ltb_trans (a b c : str) :
  ltb a b = true -> ltb b c = true -> ltb a c = true.
Proof.
  revert b c. induction a as [| x a IH]; intros [| y b] [| z c]; simpl;
    try discriminate; auto.
  destruct (N.ltb_spec x y), (N.ltb_spec y z), (N.ltb_spec x z);
    try reflexivity; try lia;
    destruct (N.eqb_spec x y), (N.eqb_spec y z), (N.eqb_spec x z);
    try discriminate; try lia; eauto.
Qed.

Lemma ltb_total (a b : str) : ltb a b = false -> ltb b a = false -> a = b.
Proof.
  revert b. induction a as [| x a IH]; intros [| y b]; simpl;
    try discriminate; auto.
  destruct (N.ltb_spec x y), (N.ltb_spec y x); try discriminate; try lia.
  destruct (N.eqb_spec x y), (N.eqb_spec y x); try discriminate; try lia.
  intros H1 H2. f_equal; auto.
Qed.

Lemma key_ltb_false (a b : Sorting.key) :
  Sorting.key_ltb b a = false <-> key_le a b.
Proof.
  unfold Sorting.key_ltb, key_le. destruct (eqb (fst b) (fst a)) eqn:E.
  - apply eqb_eq in E. rewrite E, ltb_irrefl, Z.ltb_ge. split.
    + intros H. right. now split.
    + intros [H | (_ & H)]; [discriminate | assumption].
  - apply eqb_neq in E. split.
    + intros H. left. destruct (ltb (fst a) (fst b)) eqn:L; [reflexivity |].
      exfalso. apply E. symmetry. now apply ltb_total.
    + intros [H | (H & _)]; [| congruence].
      destruct (ltb (fst b) (fst a)) eqn:L; [| reflexivity].
      pose proof (ltb_trans _ _ _ H L) as C. now rewrite ltb_irrefl in C.
Qed.

Lemma key_ltb_true (a b : Sorting.key) :
  Sorting.key_ltb a b = true -> key_le a b /\ a <> b.
Proof.
  unfold Sorting.key_ltb, key_le. destruct (eqb (fst a) (fst b)) eqn:E.
  - apply eqb_eq in E. intros H. apply Z.ltb_lt in H. split.
    + right. split; [assumption | lia].
    + intros ->. lia.
  - intros H. split; [now left |]. intros ->. now rewrite ltb_irrefl in H.
Qed.

Lemma key_le_trans (a b c : Sorting.key) :
  key_le a b -> key_le b c -> key_le a c.
Proof.
  unfold key_le. intros [H1 | (E1 & H1)] [H2 | (E2 & H2)].
  - left. eapply ltb_trans; eauto.
  - left. now rewrite <- E2.
  - left. now rewrite E1.
  - right. split; [congruence | lia].
Qed.

Lemma key_eqb_eq (a b : Sorting.key) : Sorting.key_eqb a b = true <-> a = b.
Proof.
  unfold Sorting.key_eqb. rewrite andb_true_iff, eqb_eq, Z.eqb_eq.
  destruct a, b. simpl. split.
  - intros (-> & ->). reflexivity.
  - intros H. inversion H. auto.
Qed.

Section SortFacts.
Variable A : Type.
Implicit Types (x y : Sorting.key * A) (l : list (Sorting.key * A)).

Lemma by_key_trans x y z : by_key x y -> by_key y z -> by_key x z.
Proof. apply key_le_trans. Qed.

Lemma insert_perm x l : Permutation (x :: l) (Sorting.insert x l).
Proof.
  induction l as [| y l IH]; simpl; [reflexivity |].
  destruct (Sorting.key_ltb (fst y) (fst x)); [| reflexivity].
  rewrite perm_swap. now constructor.
Qed.

Lemma sort_perm l : Permutation l (Sorting.sort l).
Proof.
  induction l as [| x l IH]; simpl; [constructor |].
  rewrite <- insert_perm. now constructor.
Qed.

Lemma insert_sorted x l :
  StronglySorted by_key l -> StronglySorted by_key (Sorting.insert x l).
Proof.
  induction l as [| y l IH]; simpl; intros Hs.
  - repeat constructor.
  - apply StronglySorted_inv in Hs as (Hs & Hy).
    destruct (Sorting.key_ltb (fst y) (fst x)) eqn:L.
    + constructor; [auto |].
      rewrite <- (insert_perm x l). constructor; [| assumption].
      now apply key_ltb_true in L.
    + apply key_ltb_false in L. constructor.
      * now constructor.
      * constructor; [exact L |].
        eapply Forall_impl; [| exact Hy].
        intros z Hz. eapply by_key_trans; eauto.
Qed.

Lemma sort_sorted l : StronglySorted by_key (Sorting.sort l).
Proof.
  induction l as [| x l IH]; simpl; [constructor | now apply insert_sorted].
Qed.

Lemma insert_of_key k x l :
  of_key k (Sorting.insert x l) = of_key k (x :: l).
Proof.
  induction l as [| y l IH]; simpl; [reflexivity |].
  destruct (Sorting.key_ltb (fst y) (fst x)) eqn:L; [| reflexivity].
  simpl in *. rewrite IH.
  destruct (Sorting.key_eqb (fst x) k) eqn:Ex,
           (Sorting.key_eqb (fst y) k) eqn:Ey; try reflexivity.
  apply key_eqb_eq in Ex, Ey. apply key_ltb_true in L as (_ & L).
  congruence.
Qed.

Lemma sort_of_key k l : of_key k (Sorting.sort l) = of_key k l.
Proof.
  induction l as [| x l IH]; simpl; [reflexivity |].
  rewrite insert_of_key. simpl. now rewrite IH.
Qed.

Lemma sorted_apart l :
  StronglySorted by_key l ->
  forall l1 x l2 y l3, l = l1 ++ x :: l2 ++ y :: l3 -> by_key x y.
Proof.
  intros Hs l1. revert l Hs.
  induction l1 as [| z l1 IH]; intros l Hs x l2 y l3 ->.
  - apply StronglySorted_inv in Hs as (_ & Hx).
    rewrite Forall_forall in Hx. apply Hx.
    apply in_or_app. right. now left.
  - apply StronglySorted_inv in Hs as (Hs & _). eapply IH; eauto.
Qed.
End SortFacts.

(** ** What the steps of a report do to the world *)

Lemma awake_refl w : awake w w.
Proof. unfold awake. auto. Qed.

Lemma awake_trans w1 w2 w3 : awake w1 w2 -> awake w2 w3 -> awake w1 w3.
Proof. unfold awake. intuition (try congruence; lia). Qed.

(** Goals [keeps R m] follow the shape of [m]: the requests are looked
    up among the hints, the rest is taken apart. *)
Create HintDb frame.

#[local] Hint Resolve now_reads popen_silent all_silent date_reads
  filter_reads : frame.

Ltac frame refl trans :=
  repeat first
    [ apply keeps_ret, refl
    | apply keeps_raise, refl
    | apply keeps_lift, refl
    | solve [auto with frame]
    | solve [eapply keeps_weaken; [apply read_clock_silent | auto with frame]]
    | apply keeps_bind; [apply trans | | intros ?]
    | apply keeps_mapM; [apply refl | apply trans | intros ?]
    | match goal with
      | |- keeps _ (if ?c then _ else _) => destruct c
      | |- keeps _ (match ?x with _ => _ end) => destruct x
      end ].

Lemma during_silent env s e : keeps silent (Builds.during env s e).
Proof. frame silent_refl silent_trans. Qed.

Lemma updates_silent env s e : keeps silent (Builds.updates env s e).
Proof. frame silent_refl silent_trans. Qed.

Lemma commits_silent env s e : keeps silent (Git.commits env s e).
Proof. frame silent_refl silent_trans. Qed.

#[local] Hint Resolve during_silent updates_silent commits_silent : frame.

Lemma items_silent env self kind : keeps silent (Printer_._items env self kind).
Proof. unfold Printer_._items. frame silent_refl silent_trans. Qed.

Lemma parse_date_silent env text : keeps silent (parse_date env text).
Proof. frame silent_refl silent_trans. Qed.

#[local] Hint Resolve parse_date_silent : frame.

Lemma init_silent env a b : keeps silent (Printer_.init env a b).
Proof. frame silent_refl silent_trans. Qed.

Lemma py_print_awake line : keeps awake (py_print line).
Proof. intros w r w' H. inversion H. unfold awake. simpl. auto. Qed.

#[local] Hint Resolve py_print_awake : frame.

Lemma print_lines_awake env items fmt :
  keeps awake (Printer_._print env items fmt).
Proof.
  unfold Printer_._print, Listable_.to_tty, Listable_.to_md.
  frame awake_refl awake_trans.
Qed.

(** One turn of [follow], taken apart. *)
Lemma follow_cycle_run env self kind fmt w self' w' :
  Printer_.follow_cycle env self kind fmt w = (Return self', w') ->
  let e := clock env (ticks w) in
  exists items w1 w2,
    Printer_._items env (mkPrinter (start self) e) kind (snd (now env w))
      = (Return items, w1)
    /\ Printer_._print env items fmt w1 = (Return tt, w2)
    /\ sleep 10 w2 = (Return tt, w')
    /\ self' = mkPrinter e e.
Proof.
  intros H e. unfold Printer_.follow_cycle in H.
  apply bind_Return in H as (e0 & w0 & He & H).
  inversion He. subst e0 w0. clear He.
  apply bind_Return in H as (items & w1 & Hi & H).
  apply bind_Return in H as ([] & w2 & Hp & H).
  apply bind_Return in H as ([] & w3 & Hs & H).
  inversion H. subst. simpl in *.
  exists items, w1, w2. auto.
Qed.

Lemma follow_cycle_world env self kind fmt w self' w' :
  Printer_.follow_cycle env self kind fmt w = (Return self', w') ->
  (ticks w < ticks w')%nat /\ naps w' = naps w ++ [10%Z].
Proof.
  intros H. apply follow_cycle_run in H as (items & w1 & w2 & Hi & Hp & Hs & _).
  apply items_silent in Hi as (Ht1 & _ & Hn1).
  apply print_lines_awake in Hp as (Ht2 & Hn2).
  inversion Hs. simpl in *. split; [lia | congruence].
Qed.

Lemma bind_assoc {A B C} (m : M A) (k : A -> M B) (h : B -> M C) w :
  bind (bind m k) h w = bind m (fun a => bind (k a) h) w.
Proof.
  unfold bind. destruct (m w) as [[e | a] w1]; reflexivity.
Qed.

Lemma bind_ext {A B} (m : M A) (k k' : A -> M B) w :
  (forall a w1, k a w1 = k' a w1) -> bind m k w = bind m k' w.
Proof.
  intros H. unfold bind. destruct (m w) as [[e | a] w1]; auto.
Qed.

Lemma bind_ret_r {A} (m : M A) w : bind m ret w = m w.
Proof. unfold bind. destruct (m w) as [[e | a] w1]; reflexivity. Qed.

(** The turns of [follow] may as well be counted from the last. *)
Lemma follow_last env i kind fmt : forall self w,
  Printer_.follow env (S i) self kind fmt w =
  bind (Printer_.follow env i self kind fmt)
       (fun self' => Printer_.follow_cycle env self' kind fmt) w.
Proof.
  induction i as [| i IH]; intros self w.
  - simpl. unfold ret at 1. unfold bind at 2. simpl.
    apply bind_ret_r.
  - change (Printer_.follow env (S (S i)) self kind fmt w)
      with (bind (Printer_.follow_cycle env self kind fmt)
              (fun s => Printer_.follow env (S i) s kind fmt) w).
    rewrite (bind_ext _ _ _ _ (fun s w1 => IH s w1)).
    rewrite <- bind_assoc. reflexivity.
Qed.

Lemma follow_later env i kind fmt : forall self w self' w',
  Printer_.follow env i self kind fmt w = (Return self', w') ->
  (ticks w <= ticks w')%nat.
Proof.
  induction i as [| i IH]; simpl; intros self w self' w' H.
  - inversion H. lia.
  - apply bind_Return in H as (s1 & w1 & Hc & H).
    apply follow_cycle_world in Hc as (Hc & _).
    apply IH in H. lia.
Qed.

(** From the second turn on, the window starts at an instant the clock
    has shown during the run. *)
Lemma follow_top env i kind fmt self0 w0 self w :
  Printer_.follow env (S i) self0 kind fmt w0 = (Return self, w) ->
  exists n, (ticks w0 <= n < ticks w)%nat /\ start self = clock env n.
Proof.
  rewrite follow_last. intros H.
  apply bind_Return in H as (s1 & w1 & Hf & Hc).
  apply follow_later in Hf.
  pose proof (follow_cycle_world _ _ _ _ _ Hc) as (Ht & _).
  apply follow_cycle_run in Hc as (_ & _ & _ & _ & _ & _ & ->).
  exists (ticks w1). simpl. split; [lia | reflexivity].
Qed.

(* ------------------------------------------------------------------ *)
(** * The claims *)

Lemma during_sound env s e w items w' :
  Builds.during env s e w = (Return items, w') ->
  forall b, In b items ->
    exists n d, (ticks w <= n <= ticks w')%nat
                /\ effective_date env n b = Return d /\ (s <= d <= e)%Z.
Proof.
  intros H b Hb. apply bind_Return in H as (builds & w1 & Ha & H).
  inversion Ha. subst w1.
  destruct (filter_sound _ _ _ _ _ H) as (_ & Hin).
  destruct (Hin b Hb) as (n & d & Hn & Hd). exists n, d.
  simpl in Hn. tauto.
Qed.

Lemma updates_run env s e w items w' :
  Builds.updates env s e w = (Return items, w') ->
  exists builds w1,
    feed env (fetches w) = Return builds
    /\ ticks w1 = ticks w
    /\ Builds._filter env (PyDict.values (Builds.by_pkg builds)) s e w1
       = (Return items, w').
Proof.
  intros H. apply bind_Return in H as (latest & w1 & Hp & H).
  apply bind_Return in Hp as (builds & w2 & Ha & Hp).
  inversion Ha. inversion Hp. subst.
  exists builds. eexists. split; [assumption |]. split; [| exact H].
  reflexivity.
Qed.

Lemma updates_sound env s e w items w' :
  Builds.updates env s e w = (Return items, w') ->
  forall b, In b items ->
    exists n d, (ticks w <= n <= ticks w')%nat
                /\ effective_date env n b = Return d /\ (s <= d <= e)%Z.
Proof.
  intros H b Hb. apply updates_run in H as (builds & w1 & _ & Ht & H).
  destruct (filter_sound _ _ _ _ _ H) as (_ & Hin).
  destruct (Hin b Hb) as (n & d & Hn & Hd). exists n, d.
  rewrite Ht in Hn. tauto.
Qed.

(** C1. For the kinds [builds] and [updates] and a window with
    [start <= end], every item that the selection returns is a build
    whose effective date, as the selection read it (from its [finished]
    field or, without one, from the clock at some reading taken during
    the selection), lies between [start] and [end], bounds included. *)
Theorem selection_within_window env self kind w items w' :
  kind = lit "builds" \/ kind = lit "updates" ->
  (start self <= end_ self)%Z ->
  Printer_._items env self kind w = (Return items, w') ->
  forall item, In item items ->
    exists b n d,
      item = OfBuild b
      /\ (ticks w <= n <= ticks w')%nat
      /\ effective_date env n b = Return d
      /\ (start self <= d <= end_ self)%Z.
Proof.
  intros Hk _ H item Hitem. unfold Printer_._items in H.
  destruct Hk as [-> | ->]; simpl in H;
    apply bind_Return in H as (bs & w1 & Hsel & H);
    inversion H; subst items w1; clear H;
    apply in_map_iff in Hitem as (b & <- & Hb); exists b.
  - destruct (during_sound _ _ _ _ Hsel b Hb) as (n & d & ?).
    exists n, d. tauto.
  - destruct (updates_sound _ _ _ _ Hsel b Hb) as (n & d & ?).
    exists n, d. tauto.
Qed.

(** C2. The [updates] view holds no two builds of one package; each of
    its builds is the last of its package in the feed; and the packages
    come in the order in which the feed first names them. *)
Theorem updates_latest_per_package env s e w items w' builds :
  feed env (fetches w) = Return builds ->
  Builds.updates env s e w = (Return items, w') ->
  NoDup (map pkg items)
  /\ (forall b, In b items ->
        exists before after,
          builds = before ++ b :: after
          /\ forall b', In b' after -> pkg b' <> pkg b)
  /\ Subseq items (PyDict.values (Builds.by_pkg builds))
  /\ map pkg (PyDict.values (Builds.by_pkg builds))
     = first_seen (map pkg builds).
Proof.
  intros Hfeed H. apply updates_run in H as (builds' & w1 & Hf & _ & H).
  rewrite Hfeed in Hf. inversion Hf. subst builds'. clear Hf.
  destruct (filter_sound _ _ _ _ _ H) as (Hsub & _).
  repeat split.
  - eapply Subseq_NoDup; [apply Subseq_map, Hsub |].
    rewrite packages_values_pkg, <- by_pkg_keys. apply by_pkg_NoDup.
  - intros b Hb. apply (Subseq_In Hsub) in Hb.
    unfold PyDict.values in Hb. apply in_map_iff in Hb as ([k b0] & E & Hb).
    simpl in E. subst b0. now destruct (by_pkg_latest _ _ _ Hb).
  - exact Hsub.
  - apply packages_values_pkg.
Qed.

Lemma split_max_none sep n s :
  contains sep s = false -> split_max sep n s = [s].
Proof.
  revert n. induction s as [| c s IH]; intros n H; [reflexivity |].
  simpl in H. apply orb_false_elim in H as (Hc & Hs).
  destruct n as [| n]; [reflexivity |]. simpl.
  rewrite N.eqb_sym, Hc. now rewrite (IH (S n) Hs).
Qed.

Lemma split_max_first sep n s :
  contains sep s = true ->
  split_max sep (S n) s
  = before_first sep s :: split_max sep n (after_first sep s).
Proof.
  induction s as [| c s IH]; intros H; [discriminate |].
  simpl in H. cbn [split_max before_first after_first].
  rewrite N.eqb_sym in H. destruct (N.eqb c sep); [reflexivity |].
  simpl in H. now rewrite (IH H).
Qed.

Lemma before_first_none sep s :
  contains sep s = false -> before_first sep s = s.
Proof.
  induction s as [| c s IH]; intros H; [reflexivity |].
  simpl in H. apply orb_false_elim in H as (Hc & Hs).
  cbn [before_first]. rewrite N.eqb_sym, Hc. now rewrite (IH Hs).
Qed.

(** What [change] is on a subject with a colon: the text between its
    first colon and its second, or its end when there is no second. *)
Lemma change_with_colon (c : Commit) :
  contains colon (msg c) = true ->
  Commit_.change c
  = Return (strip (before_first colon (after_first colon (msg c)))).
Proof.
  intros H. unfold Commit_.change. rewrite H. simpl negb. cbv iota.
  rewrite (split_max_first _ 1 _ H).
  destruct (contains colon (after_first colon (msg c))) eqn:E.
  - rewrite (split_max_first _ 0 _ E). reflexivity.
  - rewrite (split_max_none _ 1 _ E).
    now rewrite (before_first_none _ _ E).
Qed.

(** C3. On the subject [foo: bar: baz] the attribute [change] is [bar],
    the text between the first two colons, where the text after the
    first colon, trimmed, is [bar: baz]. *)
Theorem change_stops_at_second_colon r t a :
  let c := mkCommit r t (lit "foo: bar: baz") a in
  contains colon (msg c) = true
  /\ Commit_.change c = Return (lit "bar")
  /\ strip (after_first colon (msg c)) = lit "bar: baz".
Proof. repeat split; reflexivity. Qed.

(** C4. When the history query writes nothing, [commits] does not return
    the empty list: the one empty line that [split] yields has one field
    where [Commit] takes four, and the call raises [TypeError]. *)
Theorem commits_of_empty_output env s e w :
  git_log env (spawns w) s e = PipeText [] ->
  Git._commits env s e w = (Return [[]], snd (Git._commits env s e w))
  /\ Git.commits env s e w = (Raise TypeError, snd (Git.commits env s e w)).
Proof.
  intros H. unfold Git.commits, Git._commits, bind, popen. rewrite H.
  simpl. split; reflexivity.
Qed.

Lemma contains_In c s : contains c s = true <-> In c s.
Proof.
  unfold contains. rewrite existsb_exists. split.
  - intros (x & Hx & E). apply N.eqb_eq in E. now subst.
  - intros H. exists c. split; [assumption | apply N.eqb_refl].
Qed.

(** C6. A subject without a colon has the package [<unknown>] and, as
    its change, the whole subject, trimmed; the subject
    [palette: fix crash] has the package [palette] and the change
    [fix crash]. *)
Theorem subject_without_colon :
  (forall c : Commit,
      ~ In colon (msg c) ->
      Commit_.package c = Return (lit "<unknown>")
      /\ Commit_.change c = Return (strip (msg c)))
  /\ (forall r t a,
        let c := mkCommit r t (lit "palette: fix crash") a in
        Commit_.package c = Return (lit "palette")
        /\ Commit_.change c = Return (lit "fix crash")).
Proof.
  split.
  - intros c H. unfold Commit_.package, Commit_.change.
    destruct (contains colon (msg c)) eqn:E.
    + apply contains_In in E. contradiction.
    + split; reflexivity.
  - intros r t a. split; reflexivity.
Qed.

Lemma eqb_of_neq (a b : str) : a <> b -> eqb a b = false.
Proof. apply eqb_neq. Qed.

(** C9. A kind other than [builds], [updates] and [commits] makes the
    selection raise its error with the world untouched: no request to
    the feed, no process, no reading of the clock. A format other than
    [tty] and [md] makes the rendering raise its error with the world
    untouched: nothing is printed. *)
Theorem unsupported_fails_first env :
  (forall self kind w,
      ~ In kind command_choices ->
      Printer_._items env self kind w
      = (Raise (ValueError (lit "unsupported log kind: " ++ kind)), w))
  /\ (forall items fmt w,
        ~ In fmt format_choices ->
        Printer_._print env items fmt w
        = (Raise (ValueError (lit "unsupported format: " ++ fmt)), w)).
Proof.
  split.
  - intros self kind w H. unfold command_choices in H. simpl in H.
    unfold Printer_._items.
    rewrite !eqb_of_neq by (intros ->; tauto). reflexivity.
  - intros items fmt w H. unfold format_choices in H. simpl in H.
    unfold Printer_._print.
    rewrite !eqb_of_neq by (intros ->; tauto). reflexivity.
Qed.

Lemma print_empty env cli_args self kind fmt sort w w1 :
  Printer_._items env self kind w = (Return [], w1) ->
  exists r w',
    Printer_.print env cli_args self kind fmt sort w = (r, w')
    /\ stdout w' = stdout w1 ++ [lit "0 " ++ command cli_args ++ lit ":"]
    /\ (In fmt format_choices -> r = Return tt).
Proof.
  intros H. unfold Printer_.print. rewrite (@bind_run _ _ _ _ _ _ _ H).
  assert (Hs : (if sort then Sorting.sorted (Printer_.sort_key env) []
                else ret []) w1 = (Return (@nil Listable), w1))
    by (destruct sort; reflexivity).
  rewrite (@bind_run _ _ _ _ _ _ _ Hs).
  unfold bind at 1. simpl py_print.
  unfold Printer_._print.
  destruct (eqb fmt (lit "tty")) eqn:T; [| destruct (eqb fmt (lit "md")) eqn:D].
  - eexists. eexists. split; [reflexivity |]. simpl. auto.
  - eexists. eexists. split; [reflexivity |]. simpl. auto.
  - eexists. eexists. split; [reflexivity |]. simpl. split; [reflexivity |].
    apply eqb_neq in T, D. intros [<- | [<- | []]]; congruence.
Qed.

Lemma combine_map_snd {A B} (l1 : list A) (l2 : list B) :
  length l1 = length l2 -> map snd (combine l1 l2) = l2.
Proof.
  revert l2. induction l1 as [| a l1 IH]; intros [| b l2]; simpl;
    try discriminate; auto.
  intros H. f_equal. apply IH. congruence.
Qed.

(** What [sorted] returns is a stable, ordered rearrangement of the
    items under the keys computed for them. *)
Lemma sorted_orders_stably env (items : list Listable) w out w' :
  Sorting.sorted (Printer_.sort_key env) items w = (Return out, w') ->
  exists keys,
    mapM (Printer_.sort_key env) items w = (Return keys, w')
    /\ length keys = length items
    /\ out = map snd (Sorting.sort (combine keys items))
    /\ Permutation items out
    /\ StronglySorted (@by_key Listable) (Sorting.sort (combine keys items))
    /\ (forall k, of_key k (Sorting.sort (combine keys items))
                  = of_key k (combine keys items))
    /\ (forall l1 x l2 y l3,
          Sorting.sort (combine keys items) = l1 ++ x :: l2 ++ y :: l3 ->
          fst (fst x) = fst (fst y) -> (snd (fst x) <= snd (fst y))%Z).
Proof.
  intros H. unfold Sorting.sorted in H.
  apply bind_Return in H as (keys & w1 & Hkeys & H).
  inversion H. subst w1 out. clear H.
  pose proof (mapM_length _ _ _ Hkeys) as Hlen.
  exists keys. repeat split; auto.
  - rewrite <- (combine_map_snd keys items Hlen) at 1.
    apply Permutation_map, sort_perm.
  - apply sort_sorted.
  - intros k. apply sort_of_key.
  - intros l1 x l2 y l3 E Hp.
    pose proof (sorted_apart (sort_sorted (combine keys items)) _ _ _ _ _ E)
      as [L | (_ & L)]; [| exact L].
    rewrite Hp, ltb_irrefl in L. discriminate.
Qed.

(** C5, as worded, fails on the first turn of a run whose lower bound is
    still ahead of the clock: the window of that turn is empty. *)
Lemma follow_from_future_start :
  ~ boundary_in_both (Sample.env (Return []) PipeNone)
      (mkPrinter (Sample.i0 + 7 * Sample.day)%Z (Sample.i0 + 8 * Sample.day)%Z)
      (lit "builds") (lit "tty") Sample.w0.
Proof.
  intros H.
  destruct (H 0%nat _ _ _ _ eq_refl eq_refl) as (H1 & _).
  vm_compute in H1. discriminate.
Qed.

(** C5, amended. Turn [i] of [follow] selects with the window that
    starts where the printer stood and ends at the reading of the clock
    taken at the top of the turn; the next turn starts at that reading;
    the turn ends with a sleep of ten seconds. The instant that ends the
    window of turn [i] is inside that window exactly when the window
    does not start after it, and inside the window of turn [i + 1]
    exactly when the clock at the top of turn [i + 1] does not show an
    earlier instant. So, when the clock never goes back, it is inside
    the window of turn [i + 1], and inside that of turn [i] too unless
    the turn is the first and its window starts after its end. *)
Theorem follow_boundary_in_both env kind fmt self0 w0 i self w self' w' :
  Printer_.follow env i self0 kind fmt w0 = (Return self, w) ->
  Printer_.follow_cycle env self kind fmt w = (Return self', w') ->
  (exists items w1 w2,
      Printer_._items env (mkPrinter (start self) (clock env (ticks w))) kind
        (snd (now env w)) = (Return items, w1)
      /\ Printer_._print env items fmt w1 = (Return tt, w2))
  /\ start self' = clock env (ticks w)
  /\ naps w' = naps w ++ [10%Z]
  /\ (Builds.within (start self) (clock env (ticks w)) (clock env (ticks w))
      = true <-> (start self <= clock env (ticks w))%Z)
  /\ (Builds.within (start self') (clock env (ticks w'))
        (clock env (ticks w)) = true
      <-> (clock env (ticks w) <= clock env (ticks w'))%Z)
  /\ ((forall n m, (n <= m)%nat -> (clock env n <= clock env m)%Z) ->
      Builds.within (start self') (clock env (ticks w'))
        (clock env (ticks w)) = true
      /\ ((1 <= i)%nat \/ (start self0 <= clock env (ticks w0))%Z ->
          Builds.within (start self) (clock env (ticks w))
            (clock env (ticks w)) = true)).
Proof.
  intros Hf Hc.
  pose proof (follow_cycle_world _ _ _ _ _ Hc) as (Ht & Hn).
  pose proof (follow_cycle_run _ _ _ _ _ Hc) as
    (items & w1 & w2 & Hi & Hp & _ & Hself).
  assert (Hin : forall s e d : Z,
             Builds.within s e d = true <-> (s <= d <= e)%Z).
  { intros s e d. unfold Builds.within.
    rewrite andb_true_iff, !Z.leb_le. tauto. }
  subst self'. simpl start.
  split; [eauto |]. split; [reflexivity |]. split; [exact Hn |].
  split; [rewrite Hin; lia |]. split; [rewrite Hin; lia |].
  intros Hmono. split.
  - apply Hin. specialize (Hmono (ticks w) (ticks w') ltac:(lia)). lia.
  - intros Hfirst. apply Hin. split; [| lia].
    destruct i as [| i].
    + simpl in Hf. inversion Hf. subst.
      destruct Hfirst as [Hfirst | Hfirst]; [lia | exact Hfirst].
    + apply follow_top in Hf as (n & Hn' & ->). apply Hmono. lia.
Qed.

Lemma during_unfinished env b s e w :
  finished b = None ->
  feed env (fetches w) = Return [b] ->
  Builds.during env s e w =
  (Return (if Builds.within s e (clock env (ticks w)) then [b] else []),
   mkWorld (S (ticks w)) (S (fetches w)) (spawns w) (stdout w) (naps w)).
Proof.
  intros Hfin Hfeed. unfold Builds.during, Builds.all, bind.
  rewrite Hfeed. simpl. unfold bind, Build_.date. rewrite Hfin. simpl.
  reflexivity.
Qed.

Lemma items_unfinished env self w b :
  finished b = None ->
  feed env (fetches w) = Return [b] ->
  Printer_._items env self (lit "builds") w =
  (Return (if Builds.within (start self) (end_ self) (clock env (ticks w))
           then [OfBuild b] else []),
   mkWorld (S (ticks w)) (S (fetches w)) (spawns w) (stdout w) (naps w)).
Proof.
  intros Hfin Hfeed.
  change (Printer_._items env self (lit "builds") w)
    with (bind (Builds.during env (start self) (end_ self))
            (fun bs => ret (map OfBuild bs)) w).
  rewrite (@bind_run _ _ _ _ _ _ _ (during_unfinished _ _ _ _ Hfin Hfeed)).
  now destruct (Builds.within _ _ _).
Qed.

Lemma print_unfinished env cli_args self fmt sort w b :
  finished b = None ->
  feed env (fetches w) = Return [b] ->
  In fmt format_choices ->
  stdout (snd (Printer_.print env cli_args self (lit "builds") fmt sort w))
  = stdout w ++
    (if Builds.within (start self) (end_ self) (clock env (ticks w))
     then [lit "1 " ++ command cli_args ++ lit ":"; item_line fmt b]
     else [lit "0 " ++ command cli_args ++ lit ":"]).
Proof.
  intros Hfin Hfeed Hfmt. unfold Printer_.print.
  rewrite (@bind_run _ _ _ _ _ _ _ (items_unfinished _ _ _ Hfin Hfeed)).
  unfold format_choices in Hfmt. simpl in Hfmt.
  destruct (Builds.within (start self) (end_ self) (clock env (ticks w)));
    destruct Hfmt as [<- | [<- | []]]; destruct sort;
    unfold Sorting.sorted, Printer_.sort_key, bind; simpl;
    unfold Build_.date; rewrite ?Hfin; simpl;
    rewrite ?app_nil_r, <- ?app_assoc; reflexivity.
Qed.

(** C10. A build without [finished] has, at each access, the date that
    the clock shows at that access, and the access advances the count of
    readings. In a report over a feed of that build alone, the filter
    sees the reading at which the selection started and the sort key the
    reading after it. And the report is not fixed by the feed and the
    window: under a clock that shows the start of the window the build
    is listed, under a clock that shows an instant past its end the
    report is the line of count zero alone. *)
Theorem unfinished_build_follows_clock env b :
  finished b = None ->
  (forall w,
      Build_.date env b w
      = (Return (clock env (ticks w)),
         mkWorld (S (ticks w)) (fetches w) (spawns w) (stdout w) (naps w)))
  /\ (forall self w,
        feed env (fetches w) = Return [b] ->
        Builds.within (start self) (end_ self) (clock env (ticks w)) = true ->
        exists w1 w2,
          Printer_._items env self (lit "builds") w = (Return [OfBuild b], w1)
          /\ Printer_.sort_key env (OfBuild b) w1
             = (Return (pkg b, clock env (S (ticks w))), w2))
  /\ (forall cli_args self fmt sort w,
        feed env (fetches w) = Return [b] ->
        (start self <= end_ self)%Z ->
        In fmt format_choices ->
        let early := with_clock env (fun _ => start self) in
        let late := with_clock env (fun _ => (end_ self + 1)%Z) in
        stdout (snd (Printer_.print early cli_args self (lit "builds") fmt sort w))
        = stdout w ++ [lit "1 " ++ command cli_args ++ lit ":"; item_line fmt b]
        /\ stdout (snd (Printer_.print late cli_args self (lit "builds") fmt sort w))
           = stdout w ++ [lit "0 " ++ command cli_args ++ lit ":"]).
Proof.
  intros Hfin. split; [| split].
  - intros w. unfold Build_.date. rewrite Hfin. reflexivity.
  - intros self w Hfeed Hin.
    rewrite (items_unfinished _ _ _ Hfin Hfeed), Hin.
    eexists. eexists. split; [reflexivity |].
    unfold Printer_.sort_key. simpl. unfold bind, ret, Build_.date.
    rewrite Hfin. reflexivity.
  - intros cli_args self fmt sort w Hfeed Hle Hfmt early late.
    rewrite (print_unfinished early cli_args self sort w Hfin Hfeed Hfmt).
    rewrite (print_unfinished late cli_args self sort w Hfin Hfeed Hfmt).
    simpl clock. unfold Builds.within.
    replace (start self <=? start self)%Z with true
      by (symmetry; apply Z.leb_le; lia).
    replace (start self <=? end_ self)%Z with true
      by (symmetry; apply Z.leb_le; lia).
    replace (end_ self + 1 <=? end_ self)%Z with false
      by (symmetry; apply Z.leb_gt; lia).
    rewrite andb_false_r. split; reflexivity.
Qed.

(* ------------------------------------------------------------------ *)
(** * The claims on the sample environment *)

(** C1 on the report of the first four days of 2024: [vim 9.0], finished
    on the third day, is within the bounds. *)
Lemma selection_within_window_witness :
  exists b n d,
    OfBuild Sample.vim90 = OfBuild b
    /\ (0 <= n <= 1)%nat
    /\ effective_date (Sample.env (Return Sample.builds) PipeNone) n b
       = Return d
    /\ (Sample.i0 <= d <= Sample.i0 + 3 * Sample.day)%Z.
Proof.
  apply (@selection_within_window
           (Sample.env (Return Sample.builds) PipeNone) Sample.days4
           (lit "builds") Sample.w0
           (map OfBuild [Sample.nano70; Sample.vim90; Sample.nano71])
           (mkWorld 1 1 0 [] [])).
  - left. reflexivity.
  - vm_compute. discriminate.
  - vm_compute. reflexivity.
  - right. left. reflexivity.
Defined.

(** C2 on the sample feed, over the first eleven days of 2024. *)
Lemma updates_latest_per_package_witness :
  let items := [Sample.nano71; Sample.vim91] in
  NoDup (map pkg items)
  /\ (forall b, In b items ->
        exists before after,
          Sample.builds = before ++ b :: after
          /\ forall b', In b' after -> pkg b' <> pkg b)
  /\ Subseq items (PyDict.values (Builds.by_pkg Sample.builds))
  /\ map pkg (PyDict.values (Builds.by_pkg Sample.builds))
     = first_seen (map pkg Sample.builds).
Proof.
  apply (@updates_latest_per_package
           (Sample.env (Return Sample.builds) PipeNone)
           Sample.i0 (Sample.i0 + 10 * Sample.day)%Z Sample.w0
           [Sample.nano71; Sample.vim91] (mkWorld 1 1 0 [] [])
           Sample.builds).
  - reflexivity.
  - vm_compute. reflexivity.
Defined.

(** C4 where [git] writes nothing. *)
Lemma commits_of_empty_output_witness :
  Git.commits (Sample.env (Return []) (PipeText [])) 0%Z 1%Z Sample.w0
  = (Raise TypeError, mkWorld 0 0 1 [] []).
Proof.
  apply (proj2 (@commits_of_empty_output
                  (Sample.env (Return []) (PipeText [])) 0%Z 1%Z Sample.w0
                  eq_refl)).
Defined.

(** C5 on the second turn of a run over the sample feed: the instant
    that ends its window is in that window and in the next. *)
Lemma follow_boundary_in_both_witness :
  Builds.within (Sample.clock 0) (Sample.clock 2) (Sample.clock 2) = true
  /\ Builds.within (Sample.clock 2) (Sample.clock 4) (Sample.clock 2) = true.
Proof.
  assert (Hmono : forall n m, (n <= m)%nat ->
                    (Sample.clock n <= Sample.clock m)%Z).
  { intros n m H. unfold Sample.clock, Sample.second. lia. }
  pose (env := Sample.env (Return Sample.builds) PipeNone).
  pose (line := lit "- " ++ Build_.to_md Sample.nano70).
  assert (Htop : Printer_.follow env 1 Sample.days4 (lit "builds") (lit "md")
                   Sample.w0
                 = (Return (mkPrinter (Sample.clock 0) (Sample.clock 0)),
                    mkWorld 2 1 0 [line] [10%Z]))
    by (vm_compute; reflexivity).
  assert (Hturn : Printer_.follow_cycle env
                    (mkPrinter (Sample.clock 0) (Sample.clock 0))
                    (lit "builds") (lit "md") (mkWorld 2 1 0 [line] [10%Z])
                  = (Return (mkPrinter (Sample.clock 2) (Sample.clock 2)),
                     mkWorld 4 2 0 [line; line] [10%Z; 10%Z]))
    by (vm_compute; reflexivity).
  destruct (@follow_boundary_in_both _ _ _ _ _ _ _ _ _ _ Htop Hturn)
    as (_ & _ & _ & _ & _ & H).
  destruct (H Hmono) as (H2 & H1).
  specialize (H1 (or_introl (le_n 1))).
  split; [exact H1 | exact H2].
Defined.

(** C6 on a subject without a colon. *)
Lemma subject_without_colon_witness :
  let c := mkCommit (lit "abc123") Sample.t1 (lit " fix crash ") (lit "me") in
  Commit_.package c = Return (lit "<unknown>")
  /\ Commit_.change c = Return (lit "fix crash").
Proof.
  apply (proj1 subject_without_colon
           (mkCommit (lit "abc123") Sample.t1 (lit " fix crash ") (lit "me"))).
  vm_compute. intuition discriminate.
Defined.

(** C9 on a kind that the script does not know. *)
Lemma unsupported_fails_first_witness :
  Printer_._items (Sample.env (Return Sample.builds) PipeNone) Sample.days4
    (lit "bogus") Sample.w0
  = (Raise (ValueError (lit "unsupported log kind: " ++ lit "bogus")),
     Sample.w0).
Proof.
  apply (proj1 (unsupported_fails_first
                  (Sample.env (Return Sample.builds) PipeNone))).
  vm_compute. intuition discriminate.
Defined.

(** C10 on the unfinished build of the sample feed: the filter and the
    sort key see two readings of the clock, a second apart. *)
Lemma unfinished_build_follows_clock_witness :
  let env := Sample.env (Return [Sample.nano71]) PipeNone in
  (exists w1 w2,
      Printer_._items env Sample.days4 (lit "builds") Sample.w0
      = (Return [OfBuild Sample.nano71], w1)
      /\ Printer_.sort_key env (OfBuild Sample.nano71) w1
         = (Return (lit "nano", Sample.clock 1), w2))
  /\ Sample.clock 0 <> Sample.clock 1.
Proof.
  split.
  - apply (proj1 (proj2 (@unfinished_build_follows_clock
                           (Sample.env (Return [Sample.nano71]) PipeNone)
                           Sample.nano71 eq_refl))
             Sample.days4 Sample.w0).
    + reflexivity.
    + vm_compute. reflexivity.
  - vm_compute. discriminate.
Defined.

(* ------------------------------------------------------------------ *)
(** * More of the script *)

(** ** Lines and fields *)

Lemma split_max_nonempty sep n s : split_max sep n s <> [].
Proof.
  revert n. induction s as [| c s IH]; intros n; [discriminate |].
  destruct n as [| n]; [discriminate |]. simpl.
  destruct (N.eqb c sep); [discriminate |].
  destruct (split_max sep (S n) s); discriminate.
Qed.

Lemma contains_app sep s t :
  contains sep (s ++ t) = contains sep s || contains sep t.
Proof. apply existsb_app. Qed.

(** Cuts beyond the number of separators change nothing. *)
Lemma split_max_enough sep s : forall n m,
  (count_occ N.eq_dec s sep <= n)%nat ->
  (count_occ N.eq_dec s sep <= m)%nat ->
  split_max sep n s = split_max sep m s.
Proof.
  induction s as [| c s IH]; intros n m Hn Hm; [reflexivity |].
  assert (Hnone : forall k, count_occ N.eq_dec (c :: s) sep = 0%nat ->
                    split_max sep k (c :: s) = [c :: s]).
  { intros k H. apply split_max_none. unfold contains.
    destruct (existsb (N.eqb sep) (c :: s)) eqn:E; [| reflexivity].
    apply existsb_exists in E as (x & Hx & E). apply N.eqb_eq in E. subst x.
    apply (count_occ_In N.eq_dec) in Hx. lia. }
  destruct n as [| n], m as [| m]; try reflexivity.
  - rewrite !Hnone by lia. reflexivity.
  - rewrite !Hnone by lia. reflexivity.
  - simpl in *. destruct (N.eqb_spec c sep) as [-> | Hc].
    + destruct (N.eq_dec sep sep); [| congruence].
      f_equal. apply IH; lia.
    + destruct (N.eq_dec c sep); [congruence |].
      now rewrite (IH (S n) (S m)).
Qed.

Lemma count_occ_le_length (s : str) sep :
  (count_occ N.eq_dec s sep <= length s)%nat.
Proof.
  induction s as [| c s IH]; simpl; [lia |].
  destruct (N.eq_dec c sep); lia.
Qed.

Lemma split_cons_field sep f rest :
  free_of sep f -> split sep (f ++ sep :: rest) = f :: split sep rest.
Proof.
  intros Hf. unfold split.
  assert (H : contains sep (f ++ sep :: rest) = true).
  { rewrite contains_app. simpl. rewrite N.eqb_refl. apply orb_true_r. }
  destruct (length (f ++ sep :: rest)) as [| n] eqn:L.
  { destruct f; discriminate. }
  rewrite (split_max_first _ n _ H). f_equal.
  - clear -Hf. induction f as [| c f IH]; simpl.
    + now rewrite N.eqb_refl.
    + simpl in Hf. apply orb_false_elim in Hf as (Hc & Hf).
      rewrite N.eqb_sym, Hc. f_equal. now apply IH.
  - assert (A : after_first sep (f ++ sep :: rest) = rest).
    { clear -Hf. induction f as [| c f IH]; simpl.
      - now rewrite N.eqb_refl.
      - simpl in Hf. apply orb_false_elim in Hf as (Hc & Hf).
        rewrite N.eqb_sym, Hc. now apply IH. }
    rewrite A. apply split_max_enough.
    + pose proof (count_occ_le_length rest sep).
      rewrite length_app in L. simpl in L. lia.
    + apply count_occ_le_length.
Qed.

Lemma split_join sep parts :
  parts <> [] -> Forall (free_of sep) parts ->
  split sep (join [sep] parts) = parts.
Proof.
  induction parts as [| p ps IH]; intros Hne Hfree; [congruence |].
  inversion Hfree as [| ? ? Hp Hps]. subst.
  destruct ps as [| q ps].
  - simpl. unfold split. now apply split_max_none.
  - change (join [sep] (p :: q :: ps)) with (p ++ sep :: join [sep] (q :: ps)).
    rewrite split_cons_field by exact Hp.
    f_equal. apply IH; [discriminate | exact Hps].
Qed.

Lemma join_split_max sep s : forall n, join [sep] (split_max sep n s) = s.
Proof.
  induction s as [| c s IH]; intros n; [reflexivity |].
  destruct n as [| n]; [reflexivity |]. simpl.
  destruct (N.eqb_spec c sep) as [-> | Hc].
  - specialize (IH n). pose proof (split_max_nonempty sep n s).
    destruct (split_max sep n s) as [| f fs]; [congruence |].
    change (join [sep] ([] :: f :: fs)) with (sep :: join [sep] (f :: fs)).
    now rewrite IH.
  - specialize (IH (S n)). pose proof (split_max_nonempty sep (S n) s).
    destruct (split_max sep (S n) s) as [| f fs]; [congruence |].
    destruct fs as [| g fs]; simpl in *; now rewrite IH.
Qed.

Lemma split_fields_free sep s : Forall (free_of sep) (split sep s).
Proof.
  unfold split. remember (length s) as n eqn:Hn.
  assert (Hle : (length s <= n)%nat) by lia. clear Hn.
  revert n Hle. induction s as [| c s IH]; intros n Hle.
  - repeat constructor.
  - destruct n as [| n]; [simpl in Hle; lia |]. simpl in *.
    destruct (N.eqb c sep) eqn:E.
    + constructor; [reflexivity | apply IH; lia].
    + specialize (IH (S n) ltac:(lia)).
      destruct (split_max sep (S n) s) as [| f fs]; [repeat constructor |].
      * unfold free_of. simpl. now rewrite N.eqb_sym, E.
      * inversion IH. subst. constructor; [| assumption].
        unfold free_of in *. simpl. now rewrite N.eqb_sym, E.
Qed.

Lemma from_line_join (c : Commit) :
  Forall (free_of RS) (fields c) ->
  Commit_.from_line (record_line c) = Return c.
Proof.
  intros H. unfold Commit_.from_line, record_line.
  rewrite split_join by (assumption || discriminate).
  destruct c. reflexivity.
Qed.

(** X1. A line made of four fields that hold no separator is read back
    as the commit with these fields. *)
Theorem from_line_of_record (c : Commit) :
  Forall (free_of RS) (fields c) ->
  Commit_.from_line (record_line c) = Return c.
Proof. apply from_line_join. Qed.

(** X2. Whatever the line, [from_line] either returns a commit whose four
    fields, free of the separator and joined by it, are the line again,
    or raises [TypeError] because the line has not four fields. *)
Theorem from_line_inverts (line : str) :
  match Commit_.from_line line with
  | Return c => record_line c = line /\ Forall (free_of RS) (fields c)
  | Raise e => e = TypeError /\ length (split RS line) <> 4%nat
  end.
Proof.
  unfold Commit_.from_line, Commit_.init, record_line, fields.
  pose proof (join_split_max RS line (length line)) as Hj.
  pose proof (split_fields_free RS line) as Hf.
  fold (split RS line) in Hj.
  destruct (split RS line) as [| r [| t [| m [| a [| x l]]]]];
    simpl length; try (split; [reflexivity | lia]).
  simpl. split; assumption.
Qed.

(** ** Trimming *)

Lemma lstrip_idem s : lstrip (lstrip s) = lstrip s.
Proof.
  induction s as [| c s IH]; [reflexivity |]. simpl.
  destruct (isspace c) eqn:E; [exact IH |]. simpl. now rewrite E.
Qed.

Lemma lstrip_snoc s c : isspace c = false -> lstrip (s ++ [c]) = lstrip s ++ [c].
Proof.
  intros Hc. induction s as [| x s IH]; simpl.
  - now rewrite Hc.
  - destruct (isspace x); [exact IH | reflexivity].
Qed.

Lemma lstrip_head s :
  lstrip s = [] \/ exists c t, lstrip s = c :: t /\ isspace c = false.
Proof.
  induction s as [| x s IH]; [now left |]. simpl.
  destruct (isspace x) eqn:E; [exact IH |]. right. now exists x, s.
Qed.

Lemma rstrip_idem s : rstrip (rstrip s) = rstrip s.
Proof. unfold rstrip. now rewrite rev_involutive, lstrip_idem. Qed.

Lemma lstrip_rstrip_lstrip s : lstrip (rstrip (lstrip s)) = rstrip (lstrip s).
Proof.
  destruct (lstrip_head s) as [-> | (c & t & -> & Hc)]; [reflexivity |].
  unfold rstrip. simpl rev. rewrite lstrip_snoc by exact Hc.
  rewrite rev_app_distr. simpl. now rewrite Hc.
Qed.

Lemma strip_idem s : strip (strip s) = strip s.
Proof. unfold strip. now rewrite lstrip_rstrip_lstrip, rstrip_idem. Qed.

Lemma package_run (c : Commit) : Commit_.package c = Return (package_name c).
Proof.
  unfold package_name, Commit_.package.
  destruct (contains colon (msg c)) eqn:E; [| reflexivity].
  simpl negb. cbv iota. now rewrite (split_max_first _ 1 _ E).
Qed.

Lemma change_run (c : Commit) : Commit_.change c = Return (change_text c).
Proof.
  unfold change_text. destruct (contains colon (msg c)) eqn:E.
  - now apply change_with_colon.
  - unfold Commit_.change. now rewrite E.
Qed.

(** X3. The attributes [package] and [change] never raise: the guard on
    the colon keeps both indexings within the list that [split] returns.
    The package is the text before the first colon, trimmed, or
    [<unknown>]; the change is the text between the first colon and the
    second (or the end), trimmed, or the whole subject, trimmed. Both
    come without surrounding white space. *)
Theorem package_and_change_total (c : Commit) :
  Commit_.package c = Return (package_name c)
  /\ Commit_.change c = Return (change_text c)
  /\ strip (package_name c) = package_name c
  /\ strip (change_text c) = change_text c.
Proof.
  split; [apply package_run | split; [apply change_run |]].
  unfold package_name, change_text.
  destruct (contains colon (msg c)); split;
    solve [apply strip_idem | reflexivity].
Qed.

(** ** Commits by package *)

Section DictLookup.
Variable V : Type.
Implicit Types (d : PyDict.t V) (k : str) (v : V).

Lemma get_set_same k v default d :
  PyDict.get k default (PyDict.set k v d) = v.
Proof.
  induction d as [| [k' v'] d IH]; simpl.
  - now rewrite eqb_refl.
  - destruct (eqb k k') eqn:E; simpl; rewrite E; [reflexivity | exact IH].
Qed.

Lemma get_set_other k k2 v default d :
  k2 <> k ->
  PyDict.get k2 default (PyDict.set k v d) = PyDict.get k2 default d.
Proof.
  intros Hk. apply eqb_neq in Hk. induction d as [| [k' v'] d IH]; simpl.
  - now rewrite Hk.
  - destruct (eqb k k') eqn:E; simpl.
    + apply eqb_eq in E. subst k'. now rewrite Hk.
    + now rewrite IH.
Qed.
End DictLookup.

Lemma group_fold (cs : list Commit) : forall d : PyDict.t (list Commit),
  fold_left
    (fun acc c =>
       match acc with
       | Raise e => Raise e
       | Return d =>
           match Commit_.package c with
           | Raise e => Raise e
           | Return p => Return (PyDict.set p (PyDict.get p [] d ++ [c]) d)
           end
       end) cs (Return d)
  = Return (fold_left add_commit cs d).
Proof.
  induction cs as [| c cs IH]; intros d; [reflexivity |]. simpl.
  rewrite package_run. apply IH.
Qed.

Lemma groups_snoc cs c : groups (cs ++ [c]) = add_commit (groups cs) c.
Proof. unfold groups. now rewrite fold_left_app. Qed.

Lemma groups_spec (cs : list Commit) :
  PyDict.keys (groups cs) = first_seen (map package_name cs)
  /\ forall k, PyDict.get k [] (groups cs)
               = filter (fun c => eqb (package_name c) k) cs.
Proof.
  induction cs as [| c cs IH] using rev_ind; [split; reflexivity |].
  rewrite groups_snoc. unfold add_commit. destruct IH as (Hkeys & Hget). split.
  - rewrite keys_set, map_app. simpl map. rewrite first_seen_snoc, Hkeys.
    destruct (existsb (eqb (package_name c))
                (first_seen (map package_name cs))) eqn:E1,
             (existsb (eqb (package_name c)) (map package_name cs)) eqn:E2;
      try reflexivity.
    + assert (H : In (package_name c) (map package_name cs))
        by (apply first_seen_In, existsb_eqb_In; exact E1).
      apply existsb_eqb_In in H. congruence.
    + assert (H : In (package_name c) (first_seen (map package_name cs)))
        by (apply first_seen_In, existsb_eqb_In; exact E2).
      apply existsb_eqb_In in H. congruence.
  - intros k. rewrite filter_app. simpl.
    destruct (eqb (package_name c) k) eqn:E.
    + apply eqb_eq in E. subst k. now rewrite get_set_same, Hget.
    + apply eqb_neq in E. rewrite get_set_other by congruence.
      now rewrite Hget, app_nil_r.
Qed.

(** X4. When [commits] returns, [commits_by_pkg] returns too, in the
    same world: a dictionary whose keys are the packages of the commits
    in the order in which they are first met, and which holds under each
    package its commits in the order of the history. *)
Theorem commits_by_pkg_groups env s e w cs w' :
  Git.commits env s e w = (Return cs, w') ->
  Git.commits_by_pkg env s e w = (Return (groups cs), w')
  /\ PyDict.keys (groups cs) = first_seen (map package_name cs)
  /\ forall k, PyDict.get k [] (groups cs)
               = filter (fun c => eqb (package_name c) k) cs.
Proof.
  intros H. split; [| apply groups_spec].
  unfold Git.commits_by_pkg.
  rewrite (@bind_run _ _ _ _ _ _ _ H), group_fold. reflexivity.
Qed.

Lemma free_of_join c sep parts :
  free_of c sep -> Forall (free_of c) parts -> free_of c (join sep parts).
Proof.
  intros Hsep. induction 1 as [| p ps Hp Hps IH]; [reflexivity |].
  destruct ps as [| q ps]; [exact Hp |].
  change (join sep (p :: q :: ps)) with (p ++ sep ++ join sep (q :: ps)).
  unfold free_of in *. rewrite !contains_app, Hp, Hsep, IH. reflexivity.
Qed.

Lemma mapM_from_line cs w :
  Forall (fun c => Forall (free_of RS) (fields c)) cs ->
  mapM (fun line => lift (Commit_.from_line line)) (map record_line cs) w
  = (Return cs, w).
Proof.
  induction 1 as [| c cs Hc Hcs IH]; [reflexivity |]. simpl.
  unfold bind at 1. unfold lift at 1. rewrite (from_line_join Hc).
  unfold bind at 1. now rewrite IH.
Qed.

Lemma commits_run env s e w text :
  git_log env (spawns w) s e = PipeText text ->
  Git.commits env s e w
  = mapM (fun line => lift (Commit_.from_line line)) (split LF (strip text))
      (spawned 1 w).
Proof.
  intros H. unfold Git.commits, Git._commits, popen, bind. rewrite H.
  reflexivity.
Qed.

Lemma commits_records env s e w text cs :
  git_log env (spawns w) s e = PipeText text ->
  cs <> [] ->
  strip text = join [LF] (map record_line cs) ->
  Forall (fun c => Forall (fun f => free_of RS f /\ free_of LF f) (fields c))
    cs ->
  Git.commits env s e w = (Return cs, spawned 1 w).
Proof.
  intros Hlog Hne Htext Hfree.
  rewrite (commits_run _ _ _ _ Hlog), Htext, split_join.
  - apply mapM_from_line. eapply Forall_impl; [| exact Hfree].
    intros c Hc. eapply Forall_impl; [| exact Hc]. simpl. tauto.
  - destruct cs; [congruence | discriminate].
  - apply Forall_forall. intros line Hline.
    apply in_map_iff in Hline as (c & <- & Hc).
    rewrite Forall_forall in Hfree. specialize (Hfree c Hc).
    apply free_of_join; [reflexivity |].
    eapply Forall_impl; [| exact Hfree]. simpl. tauto.
Qed.

(** X5. When what [git] wrote is, once trimmed, the lines of a non-empty
    list of commits, one per commit, whose fields hold neither the
    separator of fields nor a newline, [commits] returns these commits
    in that order, after one launch of a process. *)
Theorem commits_of_records env s e w text cs :
  git_log env (spawns w) s e = PipeText text ->
  cs <> [] ->
  strip text = join [LF] (map record_line cs) ->
  Forall (fun c => Forall (fun f => free_of RS f /\ free_of LF f) (fields c))
    cs ->
  Git.commits env s e w = (Return cs, spawned 1 w).
Proof. apply commits_records. Qed.

(** X22. The selection of commits tests no date of its own: all the
    commits that [git] wrote are returned, in the order of the lines,
    whatever their time stamps and whatever the bounds of the printer
    (the bounds only go to the command line of [git]). *)
Theorem commits_selected_as_written env self w text cs :
  git_log env (spawns w) (start self) (end_ self) = PipeText text ->
  cs <> [] ->
  strip text = join [LF] (map record_line cs) ->
  Forall (fun c => Forall (fun f => free_of RS f /\ free_of LF f) (fields c))
    cs ->
  Printer_._items env self (lit "commits") w
  = (Return (map OfCommit cs), spawned 1 w).
Proof.
  intros Hlog Hne Htext Hfree.
  change (Printer_._items env self (lit "commits") w)
    with (bind (Git.commits env (start self) (end_ self))
            (fun cs => ret (map OfCommit cs)) w).
  rewrite (@bind_run _ _ _ _ _ _ _ (commits_records _ _ _ _ Hlog Hne Htext Hfree)).
  reflexivity.
Qed.

(** X23. In the format [tty] the line of a commit is made exactly when
    its time stamp can be read; otherwise the rendering raises what the
    reading of the time stamp raises. *)
Theorem commit_tty_needs_date env (c : Commit) :
  match fromisoformat env (ts c) with
  | Raise e => Commit_.to_tty env c = Raise e
  | Return d => exists line, Commit_.to_tty env c = Return line
  end.
Proof.
  unfold Commit_.to_tty, Commit_.date. rewrite package_run, change_run.
  destruct (fromisoformat env (ts c)); [reflexivity |].
  eexists. reflexivity.
Qed.

(** ** The selection of builds *)

Lemma date_fixed env b d w :
  fixed_date env b = Some d -> Build_.date env b w = (Return d, w).
Proof.
  unfold fixed_date, Build_.date. destruct (finished b) as [f |]; [| discriminate].
  unfold lift. destruct (fromisoformat env f); [discriminate |].
  intros H. inversion H. reflexivity.
Qed.

Lemma filter_fixed env s e builds w :
  Forall (fun b => fixed_date env b <> None) builds ->
  Builds._filter env builds s e w
  = (Return (filter (in_window env s e) builds), w).
Proof.
  induction 1 as [| b builds Hb Hbs IH]; [reflexivity |]. simpl.
  unfold in_window at 1.
  destruct (fixed_date env b) as [d |] eqn:E; [| congruence].
  rewrite (@bind_run _ _ _ _ _ _ _ (date_fixed _ _ w E)).
  rewrite (@bind_run _ _ _ _ _ _ _ IH). reflexivity.
Qed.

(** X6. On builds that all have a date that can be read, [_filter] is
    the plain filter of the builds whose date is within the bounds: it
    returns, keeps the order, and leaves the world as it is (the clock
    is not read). *)
Theorem filter_of_finished env s e builds w :
  Forall (fun b => fixed_date env b <> None) builds ->
  Builds._filter env builds s e w
  = (Return (filter (in_window env s e) builds), w).
Proof. apply filter_fixed. Qed.

Lemma filter_ticks env s e builds : forall w items w',
  Builds._filter env builds s e w = (Return items, w') ->
  ticks w' = (ticks w + length (filter unfinished builds))%nat.
Proof.
  induction builds as [| b builds IH]; simpl; intros w items w' H.
  - inversion H. lia.
  - apply bind_Return in H as (d & w1 & Hd & H).
    apply bind_Return in H as (kept & w2 & Hk & H).
    inversion H. subst w2. apply IH in Hk. rewrite Hk.
    unfold Build_.date, unfinished in *.
    destruct (finished b); inversion Hd; subst; simpl; lia.
Qed.

(** X7. When [_filter] returns, it has read the clock once for each
    build without [finished], and not once more. *)
Theorem filter_reads_clock_per_unfinished env s e builds w items w' :
  Builds._filter env builds s e w = (Return items, w') ->
  ticks w' = (ticks w + length (filter unfinished builds))%nat.
Proof. apply filter_ticks. Qed.

Section DictEntries.
Variable V : Type.
Implicit Types (d : PyDict.t V) (k : str) (v : V).

Lemma In_set_same k v d : In (k, v) (PyDict.set k v d).
Proof.
  induction d as [| [k' v'] d IH]; simpl; [now left |].
  destruct (eqb k k') eqn:E.
  - apply eqb_eq in E. subst k'. now left.
  - now right.
Qed.

Lemma In_set_keep k v d k0 v0 :
  k0 <> k -> In (k0, v0) d -> In (k0, v0) (PyDict.set k v d).
Proof.
  intros Hk. induction d as [| [k' v'] d IH]; simpl; [tauto |].
  intros [H | H].
  - inversion H. subst k' v'. destruct (eqb k k0) eqn:E.
    + apply eqb_eq in E. congruence.
    + now left.
  - destruct (eqb k k'); right; auto.
Qed.
End DictEntries.

Lemma by_pkg_fold_keeps after b : forall d : PyDict.t Build,
  In (pkg b, b) d ->
  (forall b', In b' after -> pkg b' <> pkg b) ->
  In (pkg b, b) (fold_left (fun d b => PyDict.set (pkg b) b d) after d).
Proof.
  induction after as [| a after IH]; intros d Hd Hafter; [exact Hd |].
  simpl. apply IH.
  - apply In_set_keep; [| exact Hd].
    intros E. apply (Hafter a); [now left | now symmetry].
  - intros b' Hb'. apply Hafter. now right.
Qed.

Lemma by_pkg_has_latest builds b :
  latest_in builds b -> In (pkg b, b) (Builds.by_pkg builds).
Proof.
  intros (before & after & -> & Hafter). unfold Builds.by_pkg.
  rewrite fold_left_app. simpl. apply by_pkg_fold_keeps; [| exact Hafter].
  apply In_set_same.
Qed.

Lemma latest_iff builds b :
  In b (PyDict.values (Builds.by_pkg builds)) <-> latest_in builds b.
Proof.
  split.
  - intros H. unfold PyDict.values in H.
    apply in_map_iff in H as ([k b0] & E & H). simpl in E. subst b0.
    destruct (by_pkg_latest _ _ _ H) as (_ & Hl). exact Hl.
  - intros H. apply by_pkg_has_latest in H.
    apply (in_map snd) in H. exact H.
Qed.

(** X8. On a feed whose builds all have a date that can be read, the
    view [updates] returns, after one request to the feed and without a
    reading of the clock, and a build is in it exactly when it is the
    last of its package in the feed and its date is within the bounds:
    a package whose last build is out of the bounds is left out, whatever
    its earlier builds. *)
Theorem updates_of_finished env s e w builds :
  feed env (fetches w) = Return builds ->
  Forall (fun b => fixed_date env b <> None) builds ->
  exists items w',
    Builds.updates env s e w = (Return items, w')
    /\ fetches w' = S (fetches w)
    /\ ticks w' = ticks w
    /\ forall b, In b items <->
                 latest_in builds b /\ in_window env s e b = true.
Proof.
  intros Hfeed Hall.
  exists (filter (in_window env s e) (PyDict.values (Builds.by_pkg builds))).
  eexists. split; [| split; [| split]].
  - unfold Builds.updates, Builds.packages, Builds.all.
    unfold bind at 1 2. rewrite Hfeed. simpl.
    apply filter_fixed. apply Forall_forall. intros b Hb.
    apply latest_iff in Hb as (before & after & -> & _).
    rewrite Forall_forall in Hall. apply Hall.
    apply in_or_app. right. now left.
  - reflexivity.
  - reflexivity.
  - intros b. rewrite filter_In, latest_iff. tauto.
Qed.

Lemma items_sound env self kind w items w' :
  kind = lit "builds" \/ kind = lit "updates" ->
  Printer_._items env self kind w = (Return items, w') ->
  forall item, In item items ->
    exists b n d,
      item = OfBuild b
      /\ (ticks w <= n <= ticks w')%nat
      /\ effective_date env n b = Return d
      /\ (start self <= d <= end_ self)%Z.
Proof.
  intros Hk H item Hitem. unfold Printer_._items in H.
  destruct Hk as [-> | ->]; simpl in H;
    apply bind_Return in H as (bs & w1 & Hsel & H);
    inversion H; subst items w1; clear H;
    apply in_map_iff in Hitem as (b & <- & Hb); exists b.
  - destruct (during_sound _ _ _ _ Hsel b Hb) as (n & d & ?).
    exists n, d. tauto.
  - destruct (updates_sound _ _ _ _ Hsel b Hb) as (n & d & ?).
    exists n, d. tauto.
Qed.

(** X9. With bounds in the wrong order, the selection of builds and
    that of updates return no item, whatever the feed holds. *)
Theorem reversed_bounds_select_nothing env self kind w items w' :
  kind = lit "builds" \/ kind = lit "updates" ->
  (end_ self < start self)%Z ->
  Printer_._items env self kind w = (Return items, w') ->
  items = [].
Proof.
  intros Hk Hrev H. destruct items as [| item items]; [reflexivity |].
  destruct (@items_sound _ _ _ _ _ _ Hk H item (or_introl eq_refl))
    as (b & n & d & _ & _ & _ & Hd). lia.
Qed.

Lemma during_world env s e w r w' :
  Builds.during env s e w = (r, w') ->
  read_clock
    (mkWorld (ticks w) (S (fetches w)) (spawns w) (stdout w) (naps w)) w'.
Proof.
  unfold Builds.during, Builds.all, bind.
  destruct (feed env (fetches w)) as [ex | builds]; intros H.
  - inversion H. apply read_clock_refl.
  - eapply filter_reads. exact H.
Qed.

Lemma updates_world env s e w r w' :
  Builds.updates env s e w = (r, w') ->
  read_clock
    (mkWorld (ticks w) (S (fetches w)) (spawns w) (stdout w) (naps w)) w'.
Proof.
  unfold Builds.updates, Builds.packages, Builds.all. unfold bind at 1 2.
  destruct (feed env (fetches w)) as [ex | builds]; simpl; intros H.
  - inversion H. apply read_clock_refl.
  - eapply filter_reads. exact H.
Qed.

Lemma commits_world env s e w r w' :
  Git.commits env s e w = (r, w') -> w' = spawned 1 w.
Proof.
  unfold Git.commits, Git._commits, popen. unfold bind at 1 2.
  assert (Hmap : forall lines w0 r0 w1,
             mapM (fun line => lift (Commit_.from_line line)) lines w0
             = (r0, w1) -> w1 = w0).
  { intros lines w0 r0 w1. apply (@keeps_mapM (fun a b => b = a)); auto.
    - intros; congruence.
    - intros x. apply keeps_lift. auto. }
  destruct (git_log env (spawns w) s e); intros H.
  - now inversion H.
  - simpl in H. now inversion H.
  - apply Hmap in H. exact H.
Qed.

(** X10. Whether it returns or raises, the selection of builds or of
    updates sends one request to the feed and launches no process; that
    of commits launches one process, sends no request and does not read
    the clock. None of them prints or sleeps. *)
Theorem selection_footprint env self kind w r w' :
  Printer_._items env self kind w = (r, w') ->
  (kind = lit "builds" \/ kind = lit "updates" ->
   fetches w' = S (fetches w) /\ spawns w' = spawns w
   /\ stdout w' = stdout w /\ naps w' = naps w)
  /\ (kind = lit "commits" ->
      spawns w' = S (spawns w) /\ fetches w' = fetches w
      /\ ticks w' = ticks w /\ stdout w' = stdout w /\ naps w' = naps w).
Proof.
  intros H. unfold Printer_._items in H. split.
  - intros [-> | ->]; simpl in H; unfold bind in H.
    + destruct (Builds.during env (start self) (end_ self) w) as [[ex | bs] w1] eqn:E;
        inversion H; subst; apply during_world in E;
        destruct E as (_ & ? & ? & ? & ?); simpl in *; auto.
    + destruct (Builds.updates env (start self) (end_ self) w) as [[ex | bs] w1] eqn:E;
        inversion H; subst; apply updates_world in E;
        destruct E as (_ & ? & ? & ? & ?); simpl in *; auto.
  - intros ->. simpl in H. unfold bind in H.
    destruct (Git.commits env (start self) (end_ self) w) as [[ex | cs] w1] eqn:E;
      inversion H; subst; apply commits_world in E; subst; simpl; auto.
Qed.

(** ** The report *)

Lemma same_refl (w : World) : w = w.
Proof. reflexivity. Qed.

Lemma same_trans (w1 w2 w3 : World) : w2 = w1 -> w3 = w2 -> w3 = w1.
Proof. congruence. Qed.

Lemma render_same env items fmt :
  keeps (fun w w' => w' = w)
    (if eqb fmt (lit "tty") then mapM (Listable_.to_tty env) items
     else if eqb fmt (lit "md") then
       mapM (fun item => s <- Listable_.to_md item ;; ret (lit "- " ++ s)) items
     else raise (Printer_.unsupported_format fmt)).
Proof.
  unfold Listable_.to_tty, Listable_.to_md. frame same_refl same_trans.
Qed.

Lemma render_length env items fmt w lines w' :
  (if eqb fmt (lit "tty") then mapM (Listable_.to_tty env) items
   else if eqb fmt (lit "md") then
     mapM (fun item => s <- Listable_.to_md item ;; ret (lit "- " ++ s)) items
   else raise (Printer_.unsupported_format fmt)) w = (Return lines, w') ->
  length lines = length items.
Proof.
  destruct (eqb fmt (lit "tty")); [| destruct (eqb fmt (lit "md"))].
  - apply mapM_length.
  - apply mapM_length.
  - discriminate.
Qed.

(** What [_print] leaves on the output: one call of [print] with the
    lines joined when there are items and the rendering returns, and
    nothing otherwise. *)
Lemma print_lines_run env items fmt w r w' :
  Printer_._print env items fmt w = (r, w') ->
  (exists e, r = Raise e /\ w' = w)
  \/ (r = Return tt
      /\ exists lines,
           length lines = length items
           /\ ticks w' = ticks w
           /\ stdout w'
              = stdout w ++ (if (0 <? length items)%nat
                             then [join [LF] lines] else [])).
Proof.
  unfold Printer_._print. unfold bind at 1.
  match goal with
  | |- (let (_, _) := ?m w in _) = _ -> _ =>
      destruct (m w) as [[e | lines] w1] eqn:E
  end; intros H.
  - left. exists e. inversion H. subst. split; [reflexivity |].
    eapply render_same. exact E.
  - right. pose proof (@render_length _ _ _ _ _ _ E) as Hlen.
    apply render_same in E. subst w1.
    destruct (0 <? length items)%nat; inversion H; subst.
    + split; [reflexivity |]. exists lines. auto.
    + split; [reflexivity |]. exists lines. rewrite app_nil_r. auto.
Qed.

Lemma sort_key_silent env item : keeps silent (Printer_.sort_key env item).
Proof.
  unfold Printer_.sort_key, Listable_.package, Listable_.date.
  frame silent_refl silent_trans.
Qed.

#[local] Hint Resolve sort_key_silent : frame.

Lemma sorted_silent env items :
  keeps silent (Sorting.sorted (Printer_.sort_key env) items).
Proof. unfold Sorting.sorted. frame silent_refl silent_trans. Qed.

Lemma sorted_length env (items : list Listable) w out w' :
  Sorting.sorted (Printer_.sort_key env) items w = (Return out, w') ->
  length out = length items.
Proof.
  intros H. unfold Sorting.sorted in H.
  apply bind_Return in H as (keys & w1 & Hkeys & H). inversion H. subst.
  apply mapM_length in Hkeys.
  rewrite length_map, <- (Permutation_length (sort_perm _)), length_combine.
  lia.
Qed.

Lemma maybe_sorted env (sort : bool) (items : list Listable) w r w' :
  (if sort then Sorting.sorted (Printer_.sort_key env) items else ret items) w
  = (r, w') ->
  silent w w'
  /\ forall out, r = Return out -> length out = length items.
Proof.
  destruct sort; intros H.
  - split; [eapply sorted_silent; exact H |].
    intros out ->. eapply sorted_length. exact H.
  - inversion H. subst. split; [apply silent_refl |].
    intros out E. now inversion E.
Qed.

(** X11. A report that ends well has printed the count line, with the
    number of the items selected and the command of the command line,
    and after it, when there are items, one block of as many lines as
    there are items; nothing else. *)
Theorem report_output env cli_args self kind fmt sort w w' :
  Printer_.print env cli_args self kind fmt sort w = (Return tt, w') ->
  exists items w1 lines,
    Printer_._items env self kind w = (Return items, w1)
    /\ length lines = length items
    /\ stdout w'
       = stdout w
           ++ Printer_.count_line cli_args (length items)
           :: (if (0 <? length items)%nat then [join [LF] lines] else []).
Proof.
  intros H. unfold Printer_.print in H.
  apply bind_Return in H as (items & w1 & Hi & H).
  apply bind_Return in H as (out & w2 & Hs & H).
  apply bind_Return in H as ([] & w3 & Hc & H).
  pose proof (@items_silent _ _ _ _ _ _ Hi) as (_ & Ho1 & _).
  destruct (@maybe_sorted _ _ _ _ _ _ Hs) as ((_ & Ho2 & _) & Hlen).
  specialize (Hlen out eq_refl).
  inversion Hc. subst w3. clear Hc.
  apply print_lines_run in H as [(e & He & _) | (_ & lines & Hl & _ & Ho)];
    [discriminate |].
  exists items, w1, lines. split; [exact Hi |]. split; [congruence |].
  rewrite Ho. simpl stdout. rewrite Ho2, Ho1, Hlen, <- app_assoc. reflexivity.
Qed.

(** X12. A report that fails has printed nothing, or the count line
    alone: no item line is printed by a report that raises. *)
Theorem failed_report_output env cli_args self kind fmt sort w e w' :
  Printer_.print env cli_args self kind fmt sort w = (Raise e, w') ->
  stdout w' = stdout w
  \/ exists n, stdout w' = stdout w ++ [Printer_.count_line cli_args n].
Proof.
  unfold Printer_.print. unfold bind at 1.
  destruct (Printer_._items env self kind w) as [[e1 | items] w1] eqn:Hi.
  - intros H. inversion H. subst. left.
    apply items_silent in Hi as (_ & Ho & _). exact Ho.
  - pose proof (@items_silent _ _ _ _ _ _ Hi) as (_ & Ho1 & _). unfold bind at 1.
    match goal with
    | |- (let (_, _) := ?m w1 in _) = _ -> _ =>
        destruct (m w1) as [[e2 | out] w2] eqn:Hs
    end.
    + intros H. inversion H. subst. left.
      destruct (@maybe_sorted _ _ _ _ _ _ Hs) as ((_ & Ho2 & _) & _). congruence.
    + destruct (@maybe_sorted _ _ _ _ _ _ Hs) as ((_ & Ho2 & _) & _).
      unfold bind at 1. simpl py_print. intros H.
      apply print_lines_run in H as [(e3 & _ & ->) | (Hr & _)];
        [| discriminate].
      right. exists (length out). simpl. congruence.
Qed.

Lemma md_line_run item w :
  (s <- Listable_.to_md item ;; ret (lit "- " ++ s)) w
  = (Return (md_line item), w).
Proof. destruct item; reflexivity. Qed.

Lemma mapM_md items w :
  mapM (fun item => s <- Listable_.to_md item ;; ret (lit "- " ++ s)) items w
  = (Return (map md_line items), w).
Proof.
  induction items as [| item items IH]; [reflexivity |]. cbn [mapM map].
  rewrite (@bind_run _ _ _ _ _ _ _ (md_line_run item w)).
  rewrite (@bind_run _ _ _ _ _ _ _ IH). reflexivity.
Qed.

(** X13. In the format [md] the rendering never raises, whatever the
    items (it reads no date): it prints nothing for no item, and
    otherwise one block where each item has its line, behind [- ]. *)
Theorem markdown_never_fails env items w :
  Printer_._print env items (lit "md") w
  = (Return tt,
     mkWorld (ticks w) (fetches w) (spawns w)
       (stdout w ++ (if (0 <? length items)%nat
                     then [join [LF] (map md_line items)] else []))
       (naps w)).
Proof.
  change (Printer_._print env items (lit "md") w)
    with (bind
            (mapM (fun item => s <- Listable_.to_md item ;; ret (lit "- " ++ s))
               items)
            (fun lines =>
               if (0 <? length items)%nat then py_print (join [LF] lines)
               else ret tt) w).
  rewrite (@bind_run _ _ _ _ _ _ _ (mapM_md items w)).
  destruct items as [| item items]; simpl.
  - rewrite app_nil_r. now destruct w.
  - reflexivity.
Qed.

(** ** The loop *)

Lemma follow_add env kind fmt i j : forall self w,
  Printer_.follow env (i + j) self kind fmt w
  = bind (Printer_.follow env i self kind fmt)
      (fun self' => Printer_.follow env j self' kind fmt) w.
Proof.
  induction i as [| i IH]; intros self w; [reflexivity |].
  change (Printer_.follow env (S i + j) self kind fmt w)
    with (bind (Printer_.follow_cycle env self kind fmt)
            (fun s => Printer_.follow env (i + j) s kind fmt) w).
  rewrite (bind_ext _ _ _ _ (fun s w1 => IH s w1)).
  rewrite <- bind_assoc. reflexivity.
Qed.

(** X14. A turn of [follow] that raises ends the loop: however many
    turns are asked for beyond it, the run stops there with the same
    exception and the same world; nothing is tried again. *)
Theorem follow_stops_at_failure env kind fmt self0 w0 i self w e w' n :
  Printer_.follow env i self0 kind fmt w0 = (Return self, w) ->
  Printer_.follow_cycle env self kind fmt w = (Raise e, w') ->
  (i < n)%nat ->
  Printer_.follow env n self0 kind fmt w0 = (Raise e, w').
Proof.
  intros Hf Hc Hn. replace n with (i + S (n - S i))%nat by lia.
  rewrite follow_add, (@bind_run _ _ _ _ _ _ _ Hf).
  simpl. unfold bind. now rewrite Hc.
Qed.

(** X16. After [n] turns that returned, [follow] has slept [n] times,
    ten seconds each, and the printer stands, bounds together, at an
    instant that the clock has shown since the start. *)
Theorem follow_sleeps env kind fmt n : forall self w self' w',
  Printer_.follow env n self kind fmt w = (Return self', w') ->
  naps w' = naps w ++ repeat 10%Z n
  /\ (ticks w + n <= ticks w')%nat
  /\ ((0 < n)%nat ->
      exists k, (ticks w <= k < ticks w')%nat
                /\ start self' = clock env k /\ end_ self' = clock env k).
Proof.
  induction n as [| n IH]; intros self w self' w' H.
  - simpl in H. inversion H. subst. rewrite app_nil_r.
    repeat split; lia.
  - pose proof H as Htop.
    rewrite follow_last in Htop.
    apply bind_Return in Htop as (s1 & w1 & Hf & Hc).
    destruct (IH _ _ _ _ Hf) as (Hnaps & Hticks & _).
    pose proof (follow_cycle_world _ _ _ _ _ Hc) as (Ht & Hn).
    apply follow_cycle_run in Hc as (_ & _ & _ & _ & _ & _ & ->).
    split; [| split].
    + rewrite Hn, Hnaps, <- app_assoc. f_equal.
      change [10%Z] with (repeat 10%Z 1). rewrite <- repeat_app.
      f_equal. lia.
    + lia.
    + intros _. exists (ticks w1). simpl. repeat split; lia.
Qed.

(** X17. Under a clock that always moves on, a turn of [follow] over
    builds or updates lists no build without [finished]: such a build
    is dated by a reading taken after the one that closed the window. *)
Theorem follow_skips_unfinished env self kind fmt w self' w' :
  (forall n m, (n < m)%nat -> (clock env n < clock env m)%Z) ->
  kind = lit "builds" \/ kind = lit "updates" ->
  Printer_.follow_cycle env self kind fmt w = (Return self', w') ->
  exists items w1,
    Printer_._items env (mkPrinter (start self) (clock env (ticks w))) kind
      (snd (now env w)) = (Return items, w1)
    /\ forall b, In (OfBuild b) items -> finished b <> None.
Proof.
  intros Hclock Hk H.
  apply follow_cycle_run in H as (items & w1 & w2 & Hi & _).
  exists items, w1. split; [exact Hi |]. intros b Hb Hfin.
  destruct (@items_sound _ _ _ _ _ _ Hk Hi _ Hb)
    as (b0 & n & d & E & Hn & Hd & Hin).
  inversion E. subst b0. unfold effective_date in Hd. rewrite Hfin in Hd.
  inversion Hd. subst d. simpl in Hn, Hin.
  specialize (Hclock (ticks w) n ltac:(lia)). lia.
Qed.

Lemma filter_complete env s e builds : forall w items w' b d,
  Builds._filter env builds s e w = (Return items, w') ->
  In b builds ->
  fixed_date env b = Some d ->
  Builds.within s e d = true ->
  In b items.
Proof.
  induction builds as [| b0 builds IH]; simpl; intros w items w' b d H Hb Hd Hw.
  - destruct Hb.
  - apply bind_Return in H as (d0 & w1 & Hd0 & H).
    apply bind_Return in H as (kept & w2 & Hk & H).
    inversion H. subst. destruct Hb as [-> | Hb].
    + rewrite (date_fixed _ _ w Hd) in Hd0. inversion Hd0. subst.
      rewrite Hw. now left.
    + specialize (IH _ _ _ _ _ Hk Hb Hd Hw).
      destruct (Builds.within s e d0); [now right | exact IH].
Qed.

Lemma during_run env s e w items w' :
  Builds.during env s e w = (Return items, w') ->
  exists builds,
    feed env (fetches w) = Return builds
    /\ Builds._filter env builds s e
         (mkWorld (ticks w) (S (fetches w)) (spawns w) (stdout w) (naps w))
       = (Return items, w').
Proof.
  intros H. apply bind_Return in H as (builds & w1 & Ha & H).
  inversion Ha. subst. now exists builds.
Qed.

(** X18. Whatever else the feed holds, a build whose date can be read
    is in what [during] returns exactly when it is in the feed and its
    date is within the bounds, both bounds included. *)
Theorem during_selects_dated env s e w items w' builds b d :
  feed env (fetches w) = Return builds ->
  Builds.during env s e w = (Return items, w') ->
  fixed_date env b = Some d ->
  (In b items <-> In b builds /\ (s <= d <= e)%Z).
Proof.
  intros Hfeed H Hd. apply during_run in H as (builds' & Hf & H).
  rewrite Hfeed in Hf. inversion Hf. subst builds'. clear Hf. split.
  - intros Hb. destruct (filter_sound _ _ _ _ _ H) as (Hsub & Hin).
    split; [eapply Subseq_In; eauto |].
    destruct (Hin b Hb) as (n & d' & _ & Hd' & Hbounds).
    unfold fixed_date in Hd. unfold effective_date in Hd'.
    destruct (finished b) as [f |]; [| discriminate].
    rewrite Hd' in Hd. inversion Hd. subst. exact Hbounds.
  - intros (Hb & Hbounds). eapply filter_complete; eauto.
    unfold Builds.within. apply andb_true_intro.
    split; apply Z.leb_le; lia.
Qed.

(** X19. A build whose date is the very instant that closes the window
    of one turn of [follow] is selected in that turn and again in the
    next one, as long as the feed still holds it, the first window does
    not start later and the clock has not gone back. *)
Theorem boundary_build_listed_twice
    env self fmt w self1 w1 self2 w2 builds1 builds2 b :
  Printer_.follow_cycle env self (lit "builds") fmt w = (Return self1, w1) ->
  Printer_.follow_cycle env self1 (lit "builds") fmt w1 = (Return self2, w2) ->
  feed env (fetches w) = Return builds1 -> In b builds1 ->
  feed env (fetches w1) = Return builds2 -> In b builds2 ->
  fixed_date env b = Some (clock env (ticks w)) ->
  (start self <= clock env (ticks w))%Z ->
  (clock env (ticks w) <= clock env (ticks w1))%Z ->
  exists items1 wa items2 wb,
    Printer_._items env (mkPrinter (start self) (clock env (ticks w)))
      (lit "builds") (snd (now env w)) = (Return items1, wa)
    /\ In (OfBuild b) items1
    /\ Printer_._items env
         (mkPrinter (clock env (ticks w)) (clock env (ticks w1)))
         (lit "builds") (snd (now env w1)) = (Return items2, wb)
    /\ In (OfBuild b) items2.
Proof.
  intros H1 H2 Hf1 Hb1 Hf2 Hb2 Hd Hs He.
  apply follow_cycle_run in H1 as (items1 & wa & _ & Hi1 & _ & _ & ->).
  apply follow_cycle_run in H2 as (items2 & wb & _ & Hi2 & _).
  simpl start in Hi2.
  exists items1, wa, items2, wb.
  assert (Hsel : forall s e w0 items w0' builds,
             Printer_._items env (mkPrinter s e) (lit "builds") w0
             = (Return items, w0') ->
             feed env (fetches w0) = Return builds -> In b builds ->
             Builds.within s e (clock env (ticks w)) = true ->
             In (OfBuild b) items).
  { intros s e w0 items w0' builds Hi Hf Hb Hw.
    change (Printer_._items env (mkPrinter s e) (lit "builds") w0)
      with (bind (Builds.during env s e) (fun bs => ret (map OfBuild bs)) w0)
      in Hi.
    apply bind_Return in Hi as (bs & w3 & Hdur & Hi). inversion Hi. subst.
    apply in_map. apply during_run in Hdur as (builds' & Hf' & Hfil).
    rewrite Hf in Hf'. inversion Hf'. subst builds'.
    eapply filter_complete; eauto. }
  repeat split; auto.
  - eapply Hsel; [exact Hi1 | exact Hf1 | exact Hb1 |].
    unfold Builds.within. apply andb_true_intro.
    split; apply Z.leb_le; lia.
  - eapply Hsel; [exact Hi2 | exact Hf2 | exact Hb2 |].
    unfold Builds.within. apply andb_true_intro.
    split; apply Z.leb_le; lia.
Qed.

(** ** The bounds *)

Lemma parse_date_run env text w :
  parse_date env text w
  = (match date_cmd env (spawns w) text with
     | PipeRaises e => Raise e
     | PipeNone => Raise (ValueError (lit "invalid date: " ++ repr env text))
     | PipeText out => fromisoformat env (strip out)
     end, spawned 1 w).
Proof.
  unfold parse_date, popen, bind.
  destruct (date_cmd env (spawns w) text); reflexivity.
Qed.

Lemma init_returns env a b w p w' :
  Printer_.init env a b w = (Return p, w') <->
  exists ta tb,
    date_cmd env (spawns w) a = PipeText ta
    /\ fromisoformat env (strip ta) = Return (start p)
    /\ date_cmd env (S (spawns w)) b = PipeText tb
    /\ fromisoformat env (strip tb) = Return (end_ p)
    /\ w' = spawned 2 w.
Proof.
  unfold Printer_.init. unfold bind at 1.
  rewrite parse_date_run. split.
  - destruct (date_cmd env (spawns w) a) as [e | | ta];
      try (intros H; discriminate H).
    destruct (fromisoformat env (strip ta)) as [e | s] eqn:Ea;
      [intros H; discriminate H |].
    unfold bind at 1. rewrite parse_date_run. simpl spawns.
    destruct (date_cmd env (S (spawns w)) b) as [e | | tb];
      try (intros H; discriminate H).
    destruct (fromisoformat env (strip tb)) as [e | e'] eqn:Eb;
      [intros H; discriminate H |].
    intros H. inversion H. subst. exists ta, tb. auto.
  - intros (ta & tb & -> & -> & Hb & He & ->).
    unfold bind at 1. rewrite parse_date_run. simpl spawns.
    rewrite Hb, He. destruct p. reflexivity.
Qed.

(** X20. The printer is made by reading the lower bound, then the
    upper one, each with one launch of [date]: it is made exactly when
    both launches write a text that, trimmed, reads as a date, and then
    holds these two dates. When the lower bound fails, the upper one is
    not even asked for. *)
Theorem init_parses_in_order env a b w :
  (forall p w',
      Printer_.init env a b w = (Return p, w') <->
      exists ta tb,
        date_cmd env (spawns w) a = PipeText ta
        /\ fromisoformat env (strip ta) = Return (start p)
        /\ date_cmd env (S (spawns w)) b = PipeText tb
        /\ fromisoformat env (strip tb) = Return (end_ p)
        /\ w' = spawned 2 w)
  /\ (forall e w1,
        parse_date env a w = (Raise e, w1) ->
        Printer_.init env a b w = (Raise e, w1) /\ w1 = spawned 1 w).
Proof.
  split.
  - intros p w'. apply init_returns.
  - intros e w1 H. unfold Printer_.init. unfold bind at 1. rewrite H.
    rewrite parse_date_run in H. inversion H. auto.
Qed.

(** X15. In follow mode the upper bound of the command line is read and
    then never used: two command lines that differ in it alone, and
    whose bounds can both be read, give the same run. *)
Theorem follow_mode_ignores_before
    env n cmd a b1 b2 fmt srt w p1 w1 p2 w2 :
  Printer_.init env a b1 w = (Return p1, w1) ->
  Printer_.init env a b2 w = (Return p2, w2) ->
  Printer_.main env (S n) (mkNamespace cmd a b1 fmt srt true) w
  = Printer_.main env (S n) (mkNamespace cmd a b2 fmt srt true) w.
Proof.
  intros H1 H2. unfold Printer_.main.
  rewrite (@bind_run _ _ _ _ _ _ _ H1), (@bind_run _ _ _ _ _ _ _ H2).
  apply init_returns in H1 as (ta & tb1 & Ha & Hs1 & _ & _ & ->).
  apply init_returns in H2 as (ta' & tb2 & Ha' & Hs2 & _ & _ & ->).
  rewrite Ha in Ha'. inversion Ha'. subst ta'.
  rewrite Hs1 in Hs2. inversion Hs2 as [Hs].
  destruct p1 as [s1 e1], p2 as [s2 e2]. simpl in Hs. subst s2.
  reflexivity.
Qed.

(** ** Sorting again *)

Lemma sort_fixes_sorted {A} (l : list (Sorting.key * A)) :
  StronglySorted by_key l -> Sorting.sort l = l.
Proof.
  unfold Sorting.sort.
  induction 1 as [| x l Hs IH Hx]; [reflexivity |]. simpl. rewrite IH.
  destruct l as [| y l]; [reflexivity |]. simpl.
  inversion Hx as [| ? ? Hxy _]. subst.
  apply key_ltb_false in Hxy. now rewrite Hxy.
Qed.

(* ------------------------------------------------------------------ *)
(** * More of the script, on the sample environment *)

(** X1 on the first commit of the sample history. *)
Lemma from_line_of_record_witness :
  Commit_.from_line (record_line SampleLog.c1) = Return SampleLog.c1.
Proof.
  apply (@from_line_of_record SampleLog.c1).
  repeat constructor.
Defined.

(** X4 on the sample history: two packages, [nano] first. *)
Lemma commits_by_pkg_groups_witness :
  Git.commits_by_pkg SampleLog.env 0%Z 1%Z Sample.w0
  = (Return (groups SampleLog.commits), spawned 1 Sample.w0)
  /\ PyDict.keys (groups SampleLog.commits)
     = first_seen (map package_name SampleLog.commits)
  /\ forall k, PyDict.get k [] (groups SampleLog.commits)
               = filter (fun c => eqb (package_name c) k) SampleLog.commits.
Proof.
  apply (@commits_by_pkg_groups SampleLog.env 0%Z 1%Z Sample.w0
           SampleLog.commits (spawned 1 Sample.w0)).
  vm_compute. reflexivity.
Defined.

(** X5 on the sample history. *)
Lemma commits_of_records_witness :
  Git.commits SampleLog.env 0%Z 1%Z Sample.w0
  = (Return SampleLog.commits, spawned 1 Sample.w0).
Proof.
  apply (@commits_of_records SampleLog.env 0%Z 1%Z Sample.w0
           SampleLog.text SampleLog.commits).
  - reflexivity.
  - discriminate.
  - vm_compute. reflexivity.
  - repeat constructor.
Defined.

(** X6 on the finished builds of the sample feed. *)
Lemma filter_of_finished_witness :
  let env := Sample.env (Return SampleLog.finished_builds) PipeNone in
  Builds._filter env SampleLog.finished_builds Sample.i0
    (Sample.i0 + 3 * Sample.day)%Z Sample.w0
  = (Return (filter (in_window env Sample.i0 (Sample.i0 + 3 * Sample.day)%Z)
               SampleLog.finished_builds), Sample.w0).
Proof.
  apply (@filter_of_finished
           (Sample.env (Return SampleLog.finished_builds) PipeNone)).
  repeat constructor; vm_compute; discriminate.
Defined.

(** X7 on the sample feed, which has one unfinished build. *)
Lemma filter_reads_clock_per_unfinished_witness :
  ticks (mkWorld 1 0 0 [] [])
  = (ticks Sample.w0 + length (filter unfinished Sample.builds))%nat.
Proof.
  apply (@filter_reads_clock_per_unfinished
           (Sample.env (Return Sample.builds) PipeNone)
           Sample.i0 (Sample.i0 + 3 * Sample.day)%Z Sample.builds Sample.w0
           [Sample.nano70; Sample.vim90; Sample.nano71]).
  vm_compute. reflexivity.
Defined.

(** X8 on the finished builds of the sample feed. *)
Lemma updates_of_finished_witness :
  let env := Sample.env (Return SampleLog.finished_builds) PipeNone in
  let s := Sample.i0 in
  let e := (Sample.i0 + 3 * Sample.day)%Z in
  exists items w',
    Builds.updates env s e Sample.w0 = (Return items, w')
    /\ fetches w' = S (fetches Sample.w0)
    /\ ticks w' = ticks Sample.w0
    /\ forall b, In b items <->
                 latest_in SampleLog.finished_builds b
                 /\ in_window env s e b = true.
Proof.
  apply (@updates_of_finished
           (Sample.env (Return SampleLog.finished_builds) PipeNone)).
  - reflexivity.
  - repeat constructor; vm_compute; discriminate.
Defined.

(** X9 on the sample feed, with the bounds of [days4] exchanged. *)
Lemma reversed_bounds_select_nothing_witness : @nil Listable = [].
Proof.
  apply (@reversed_bounds_select_nothing
           (Sample.env (Return Sample.builds) PipeNone)
           (mkPrinter (Sample.i0 + 3 * Sample.day)%Z Sample.i0)
           (lit "builds") Sample.w0 [] (mkWorld 1 1 0 [] [])).
  - left. reflexivity.
  - vm_compute. reflexivity.
  - vm_compute. reflexivity.
Defined.

(** X10 on the selection of the builds of the sample feed. *)
Lemma selection_footprint_witness :
  let w' := mkWorld 1 1 0 [] [] in
  (lit "builds" = lit "builds" \/ lit "builds" = lit "updates" ->
   fetches w' = S (fetches Sample.w0) /\ spawns w' = spawns Sample.w0
   /\ stdout w' = stdout Sample.w0 /\ naps w' = naps Sample.w0)
  /\ (lit "builds" = lit "commits" ->
      spawns w' = S (spawns Sample.w0) /\ fetches w' = fetches Sample.w0
      /\ ticks w' = ticks Sample.w0 /\ stdout w' = stdout Sample.w0
      /\ naps w' = naps Sample.w0).
Proof.
  apply (@selection_footprint
           (Sample.env (Return Sample.builds) PipeNone) Sample.days4
           (lit "builds") Sample.w0
           (Return (map OfBuild [Sample.nano70; Sample.vim90; Sample.nano71]))
           (mkWorld 1 1 0 [] [])).
  vm_compute. reflexivity.
Defined.

(** X11 on the sorted report of the builds of the sample feed. *)
Lemma report_output_witness :
  let env := Sample.env (Return Sample.builds) PipeNone in
  let cli_args := Sample.args "builds" "md" true false in
  let w' := snd (Printer_.print env cli_args Sample.days4 (lit "builds")
                   (lit "md") true Sample.w0) in
  exists items w1 lines,
    Printer_._items env Sample.days4 (lit "builds") Sample.w0
    = (Return items, w1)
    /\ length lines = length items
    /\ stdout w'
       = stdout Sample.w0
           ++ Printer_.count_line cli_args (length items)
           :: (if (0 <? length items)%nat then [join [LF] lines] else []).
Proof.
  apply (@report_output (Sample.env (Return Sample.builds) PipeNone)
           (Sample.args "builds" "md" true false) Sample.days4
           (lit "builds") (lit "md") true Sample.w0).
  vm_compute. reflexivity.
Defined.

(** X12 on a feed that cannot be reached: nothing is printed. *)
Lemma failed_report_output_witness :
  let cli_args := Sample.args "builds" "md" false false in
  let w' := mkWorld 0 1 0 [] [] in
  stdout w' = stdout Sample.w0
  \/ exists n, stdout w'
               = stdout Sample.w0 ++ [Printer_.count_line cli_args n].
Proof.
  apply (@failed_report_output SampleLog.offline
           (Sample.args "builds" "md" false false) Sample.days4
           (lit "builds") (lit "md") false Sample.w0 URLError
           (mkWorld 0 1 0 [] [])).
  vm_compute. reflexivity.
Defined.

(** X14 on a feed that cannot be reached: five turns asked for, one
    request sent. *)
Lemma follow_stops_at_failure_witness :
  Printer_.follow SampleLog.offline 5 Sample.days4 (lit "builds") (lit "tty")
    Sample.w0
  = (Raise URLError, mkWorld 1 1 0 [] []).
Proof.
  apply (@follow_stops_at_failure SampleLog.offline (lit "builds") (lit "tty")
           Sample.days4 Sample.w0 0 Sample.days4 Sample.w0 URLError
           (mkWorld 1 1 0 [] []) 5).
  - reflexivity.
  - vm_compute. reflexivity.
  - lia.
Defined.

(** X16 on two turns over the sample feed. *)
Lemma follow_sleeps_witness :
  let env := Sample.env (Return Sample.builds) PipeNone in
  let line := lit "- " ++ Build_.to_md Sample.nano70 in
  let self' := mkPrinter (Sample.clock 2) (Sample.clock 2) in
  let w' := mkWorld 4 2 0 [line; line] [10%Z; 10%Z] in
  naps w' = naps Sample.w0 ++ repeat 10%Z 2
  /\ (ticks Sample.w0 + 2 <= ticks w')%nat
  /\ ((0 < 2)%nat ->
      exists k, (ticks Sample.w0 <= k < ticks w')%nat
                /\ start self' = clock env k /\ end_ self' = clock env k).
Proof.
  apply (@follow_sleeps (Sample.env (Return Sample.builds) PipeNone)
           (lit "builds") (lit "md") 2 Sample.days4 Sample.w0).
  vm_compute. reflexivity.
Defined.

(** X17 on the first turn over the sample feed, whose clock gains a
    second at each reading. *)
Lemma follow_skips_unfinished_witness :
  let env := Sample.env (Return Sample.builds) PipeNone in
  exists items w1,
    Printer_._items env (mkPrinter (start Sample.days4) (clock env 0))
      (lit "builds") (snd (now env Sample.w0)) = (Return items, w1)
    /\ forall b, In (OfBuild b) items -> finished b <> None.
Proof.
  apply (@follow_skips_unfinished
           (Sample.env (Return Sample.builds) PipeNone) Sample.days4
           (lit "builds") (lit "md") Sample.w0
           (mkPrinter (Sample.clock 0) (Sample.clock 0))
           (mkWorld 2 1 0 [lit "- " ++ Build_.to_md Sample.nano70] [10%Z])).
  - intros n m H. simpl. unfold Sample.clock, Sample.second. lia.
  - left. reflexivity.
  - vm_compute. reflexivity.
Defined.

(** X18 on [vim 9.0] in the sample feed, over the first four days. *)
Lemma during_selects_dated_witness :
  In Sample.vim90 [Sample.nano70; Sample.vim90; Sample.nano71] <->
  In Sample.vim90 Sample.builds
  /\ (Sample.i0 <= Sample.i0 + 2 * Sample.day
      <= Sample.i0 + 3 * Sample.day)%Z.
Proof.
  apply (@during_selects_dated
           (Sample.env (Return Sample.builds) PipeNone)
           Sample.i0 (Sample.i0 + 3 * Sample.day)%Z Sample.w0
           [Sample.nano70; Sample.vim90; Sample.nano71]
           (mkWorld 1 1 0 [] []) Sample.builds Sample.vim90).
  - reflexivity.
  - vm_compute. reflexivity.
  - vm_compute. reflexivity.
Defined.

(** X19 on [nano 7.0], finished at the very instant of the first
    reading of the clock: it is selected in the first turn and in the
    second. *)
Lemma boundary_build_listed_twice_witness :
  let env := Sample.env (Return Sample.builds) PipeNone in
  let line := lit "- " ++ Build_.to_md Sample.nano70 in
  let w1 := mkWorld 2 1 0 [line] [10%Z] in
  exists items1 wa items2 wb,
    Printer_._items env (mkPrinter (start Sample.days4) (clock env 0))
      (lit "builds") (snd (now env Sample.w0)) = (Return items1, wa)
    /\ In (OfBuild Sample.nano70) items1
    /\ Printer_._items env (mkPrinter (clock env 0) (clock env 2))
         (lit "builds") (snd (now env w1)) = (Return items2, wb)
    /\ In (OfBuild Sample.nano70) items2.
Proof.
  apply (@boundary_build_listed_twice
           (Sample.env (Return Sample.builds) PipeNone) Sample.days4
           (lit "md") Sample.w0
           (mkPrinter (Sample.clock 0) (Sample.clock 0))
           (mkWorld 2 1 0 [lit "- " ++ Build_.to_md Sample.nano70] [10%Z])
           (mkPrinter (Sample.clock 2) (Sample.clock 2))
           (mkWorld 4 2 0
              [lit "- " ++ Build_.to_md Sample.nano70;
               lit "- " ++ Build_.to_md Sample.nano70] [10%Z; 10%Z])
           Sample.builds Sample.builds Sample.nano70).
  - vm_compute. reflexivity.
  - vm_compute. reflexivity.
  - reflexivity.
  - left. reflexivity.
  - reflexivity.
  - left. reflexivity.
  - vm_compute. reflexivity.
  - vm_compute. discriminate.
  - vm_compute. discriminate.
Defined.

(** X20 on the two bounds of the sample command line. *)
Lemma init_parses_in_order_witness :
  Printer_.init (Sample.env (Return []) PipeNone) (lit "2024-01-01")
    (lit "2024-01-04") Sample.w0
  = (Return Sample.days4, spawned 2 Sample.w0).
Proof.
  apply (proj1 (@init_parses_in_order (Sample.env (Return []) PipeNone)
                  (lit "2024-01-01") (lit "2024-01-04") Sample.w0)
           Sample.days4 (spawned 2 Sample.w0)).
  exists (Sample.t0 ++ [LF]), (Sample.t3 ++ [LF]).
  repeat split; vm_compute; reflexivity.
Defined.

(** X22 on the sample history, asked for a window that none of its
    commits is in. *)
Lemma commits_selected_as_written_witness :
  Printer_._items SampleLog.env (mkPrinter 0%Z 1%Z) (lit "commits") Sample.w0
  = (Return (map OfCommit SampleLog.commits), spawned 1 Sample.w0).
Proof.
  apply (@commits_selected_as_written SampleLog.env (mkPrinter 0%Z 1%Z)
           Sample.w0 SampleLog.text SampleLog.commits).
  - reflexivity.
  - discriminate.
  - vm_compute. reflexivity.
  - repeat constructor.
Defined.

(** X15 on two command lines of the sample environment. *)
Lemma follow_mode_ignores_before_witness :
  let env := Sample.env (Return Sample.builds) PipeNone in
  Printer_.main env 2
    (mkNamespace (lit "builds") (lit "2024-01-01") (lit "2024-01-04")
       (lit "md") false true) Sample.w0
  = Printer_.main env 2
      (mkNamespace (lit "builds") (lit "2024-01-01") (lit "tomorrow")
         (lit "md") false true) Sample.w0.
Proof.
  apply (@follow_mode_ignores_before
           (Sample.env (Return Sample.builds) PipeNone) 1 (lit "builds")
           (lit "2024-01-01") (lit "2024-01-04") (lit "tomorrow") (lit "md")
           false Sample.w0 Sample.days4 (spawned 2 Sample.w0)
           Sample.days4 (spawned 2 Sample.w0)).
  - vm_compute. reflexivity.
  - vm_compute. reflexivity.
Defined.

(* ------------------------------------------------------------------ *)
(** * The report of an empty history, and the sorted report *)

Lemma bind_Raise {A B} (m : M A) (k : A -> M B) w e w1 :
  m w = (Raise e, w1) -> bind m k w = (Raise e, w1).
Proof. unfold bind. now intros ->. Qed.

(** C7. In one-shot mode, for the command [commits], when [git] writes
    nothing (or white space alone) the script prints no count line: the
    one empty line that [split] yields makes [Commit] raise [TypeError]
    before anything is printed, where an empty selection is to give the
    line [0 commits:]. *)
Theorem empty_history_prints_no_count env cycles cli_args printer w w1 text :
  follow cli_args = false ->
  command cli_args = lit "commits" ->
  Printer_.init env (after cli_args) (before cli_args) w
  = (Return printer, w1) ->
  git_log env (spawns w1) (start printer) (end_ printer) = PipeText text ->
  strip text = [] ->
  exists w',
    Printer_.main env cycles cli_args w = (Raise TypeError, w')
    /\ stdout w' = stdout w.
Proof.
  intros Hmode Hcmd Hinit Hlog Hblank.
  exists (spawned 1 w1). split.
  - assert (Hc : Git.commits env (start printer) (end_ printer) w1
                 = (Raise TypeError, spawned 1 w1)).
    { rewrite (commits_run _ _ _ _ Hlog), Hblank. reflexivity. }
    assert (Hi : Printer_._items env printer (lit "commits") w1
                 = (Raise TypeError, spawned 1 w1)).
    { change (Printer_._items env printer (lit "commits") w1)
        with (bind (Git.commits env (start printer) (end_ printer))
                (fun cs => ret (map OfCommit cs)) w1).
      now apply bind_Raise. }
    destruct cli_args as [cmd aft bef fmt srt fol]. simpl in *. subst fol cmd.
    rewrite (@bind_run _ _ _ _ _ _ _ Hinit).
    unfold Printer_.print. now apply bind_Raise.
  - apply init_silent in Hinit as (_ & Ho & _). simpl. exact Ho.
Qed.

(** C7 on a history query that writes nothing. *)
Lemma empty_history_prints_no_count_witness :
  exists w',
    Printer_.main (Sample.env (Return []) (PipeText [])) 0
      (Sample.args "commits" "tty" false false) Sample.w0
    = (Raise TypeError, w')
    /\ stdout w' = stdout Sample.w0.
Proof.
  apply (@empty_history_prints_no_count
           (Sample.env (Return []) (PipeText [])) 0
           (Sample.args "commits" "tty" false false)
           Sample.days4 Sample.w0 (spawned 2 Sample.w0) []).
  - reflexivity.
  - reflexivity.
  - vm_compute. reflexivity.
  - reflexivity.
  - reflexivity.
Defined.

Lemma sort_key_run env item w :
  exists w',
    Printer_.sort_key env item w = (key_at env (ticks w) item, w')
    /\ read_clock w w'.
Proof.
  unfold Printer_.sort_key, key_at. destruct item as [b | c]; simpl.
  - destruct (date_run env b w) as (w' & E & Hr). exists w'.
    split; [| exact Hr]. unfold bind, ret. rewrite E.
    now destruct (effective_date env (ticks w) b).
  - exists w. split; [| apply read_clock_refl].
    unfold bind, lift, ret, Commit_.date. rewrite package_run.
    now destruct (fromisoformat env (ts c)).
Qed.

(** Each key that [sorted] computes is the package of its item with the
    date of the item at a reading of the clock taken meanwhile. *)
Lemma keys_pinned env items : forall w keys w',
  mapM (Printer_.sort_key env) items w = (Return keys, w') ->
  Forall2
    (fun item k =>
       exists n, (ticks w <= n <= ticks w')%nat
                 /\ key_at env n item = Return k)
    items keys.
Proof.
  induction items as [| item items IH]; simpl; intros w keys w' H.
  - inversion H. constructor.
  - apply bind_Return in H as (k & w1 & Hk & H).
    apply bind_Return in H as (ks & w2 & Hks & H).
    inversion H. subst w2 keys. clear H.
    destruct (sort_key_run env item w) as (w1' & E & (Ht1 & _)).
    rewrite E in Hk. inversion Hk as [[Hkey Hw]]. subst w1'.
    assert (Ht2 : (ticks w1 <= ticks w')%nat).
    { eapply (@keeps_mapM silent silent_refl silent_trans) in Hks;
        [apply Hks | apply sort_key_silent]. }
    constructor.
    + exists (ticks w). split; [lia | exact Hkey].
    + eapply Forall2_impl; [| apply (IH _ _ _ Hks)].
      intros it k0 (n & Hn & Hk0). exists n. split; [lia | exact Hk0].
Qed.

Lemma line_of_run env fmt item w :
  (if eqb fmt (lit "tty") then Listable_.to_tty env item
   else s <- Listable_.to_md item ;; ret (lit "- " ++ s)) w
  = ((if eqb fmt (lit "tty") then
        match item with
        | OfBuild b => Return (Build_.to_tty b)
        | OfCommit c => Commit_.to_tty env c
        end
      else Return (md_line item)), w).
Proof.
  destruct (eqb fmt (lit "tty")).
  - destruct item; reflexivity.
  - apply md_line_run.
Qed.

Lemma mapM_lines {A B} (f : A -> M B) (g : A -> result B) :
  (forall a w, f a w = (g a, w)) ->
  forall xs w ys w',
    mapM f xs w = (Return ys, w') ->
    Forall2 (fun x y => g x = Return y) xs ys.
Proof.
  intros Hf. induction xs as [| x xs IH]; simpl; intros w ys w' H.
  - inversion H. constructor.
  - apply bind_Return in H as (y & w1 & Hy & H).
    apply bind_Return in H as (ys' & w2 & Hys & H).
    inversion H. subst. rewrite Hf in Hy. inversion Hy.
    constructor; [assumption | eauto].
Qed.

(** The lines that [_print] joins are those of the items, in order. *)
Lemma render_lines env items fmt w lines w' :
  (if eqb fmt (lit "tty") then mapM (Listable_.to_tty env) items
   else if eqb fmt (lit "md") then
     mapM (fun item => s <- Listable_.to_md item ;; ret (lit "- " ++ s)) items
   else raise (Printer_.unsupported_format fmt)) w = (Return lines, w') ->
  Forall2 (fun item line => line_of env fmt item = Return line) items lines.
Proof.
  unfold line_of.
  destruct (eqb fmt (lit "tty")); [| destruct (eqb fmt (lit "md"))].
  - apply mapM_lines. intros [b | c] w0; reflexivity.
  - apply mapM_lines. intros item w0. apply md_line_run.
  - discriminate.
Qed.

Lemma print_lines_of env items fmt w w' :
  Printer_._print env items fmt w = (Return tt, w') ->
  exists lines,
    Forall2 (fun item line => line_of env fmt item = Return line) items lines
    /\ stdout w'
       = stdout w ++ (if (0 <? length items)%nat
                      then [join [LF] lines] else []).
Proof.
  unfold Printer_._print. unfold bind at 1.
  match goal with
  | |- (let (_, _) := ?m w in _) = _ -> _ =>
      destruct (m w) as [[e | lines] w1] eqn:E
  end; intros H; [discriminate |].
  pose proof (render_lines _ _ _ _ E) as Hl.
  apply render_same in E. subst w1. exists lines. split; [exact Hl |].
  destruct (0 <? length items)%nat; inversion H; subst; simpl.
  - reflexivity.
  - now rewrite app_nil_r.
Qed.

(** C8. A report with the sort flag that ends well prints, after the
    count line, the lines of the selected items rearranged by the sort:
    the sorted list is a permutation of the selection, in ascending
    order of the keys, where the key of an item is its package with its
    effective date (for a build without [finished], the clock at a
    reading taken during the sort), package names compared by code
    points and then dates; items of one key keep the order of the
    selection; and of two items of one package, the one printed first
    has the date that is not later. *)
Theorem sort_flag_orders_stably env cli_args self kind fmt w w' :
  Printer_.print env cli_args self kind fmt true w = (Return tt, w') ->
  exists items w1 keys w2 lines,
    Printer_._items env self kind w = (Return items, w1)
    /\ Forall2
         (fun item k =>
            exists n, (ticks w1 <= n <= ticks w2)%nat
                      /\ key_at env n item = Return k)
         items keys
    /\ Permutation items (map snd (Sorting.sort (combine keys items)))
    /\ StronglySorted (@by_key Listable) (Sorting.sort (combine keys items))
    /\ (forall k, of_key k (Sorting.sort (combine keys items))
                  = of_key k (combine keys items))
    /\ (forall l1 x l2 y l3,
          Sorting.sort (combine keys items) = l1 ++ x :: l2 ++ y :: l3 ->
          fst (fst x) = fst (fst y) -> (snd (fst x) <= snd (fst y))%Z)
    /\ Forall2 (fun item line => line_of env fmt item = Return line)
         (map snd (Sorting.sort (combine keys items))) lines
    /\ stdout w'
       = stdout w
           ++ Printer_.count_line cli_args (length items)
           :: (if (0 <? length items)%nat then [join [LF] lines] else []).
Proof.
  intros H. unfold Printer_.print in H.
  apply bind_Return in H as (items & w1 & Hi & H).
  apply bind_Return in H as (out & w2 & Hs & H).
  apply bind_Return in H as ([] & w3 & Hc & H).
  inversion Hc. subst w3. clear Hc.
  pose proof (@items_silent _ _ _ _ _ _ Hi) as (_ & Ho1 & _).
  pose proof (@sorted_silent _ _ _ _ _ Hs) as (_ & Ho2 & _).
  destruct (sorted_orders_stably _ _ _ Hs)
    as (keys & Hkeys & Hlen & Hout & Hperm & Hsorted & Hstable & Hdates).
  apply print_lines_of in H as (lines & Hlines & Hstd).
  exists items, w1, keys, w2, lines.
  split; [exact Hi |]. split; [eapply keys_pinned; exact Hkeys |].
  rewrite <- Hout. repeat (split; [assumption |]).
  rewrite Hstd. simpl stdout.
  rewrite Ho2, Ho1, (Permutation_length Hperm), <- app_assoc. reflexivity.
Qed.

(** C8 on the builds of the sample feed, in the format [md]. *)
Lemma sort_flag_orders_stably_witness :
  let env := Sample.env (Return Sample.builds) PipeNone in
  let cli_args := Sample.args "builds" "md" true false in
  let w' := snd (Printer_.print env cli_args Sample.days4 (lit "builds")
                   (lit "md") true Sample.w0) in
  exists items w1 keys w2 lines,
    Printer_._items env Sample.days4 (lit "builds") Sample.w0
    = (Return items, w1)
    /\ Forall2
         (fun item k =>
            exists n, (ticks w1 <= n <= ticks w2)%nat
                      /\ key_at env n item = Return k)
         items keys
    /\ Permutation items (map snd (Sorting.sort (combine keys items)))
    /\ StronglySorted (@by_key Listable) (Sorting.sort (combine keys items))
    /\ (forall k, of_key k (Sorting.sort (combine keys items))
                  = of_key k (combine keys items))
    /\ (forall l1 x l2 y l3,
          Sorting.sort (combine keys items) = l1 ++ x :: l2 ++ y :: l3 ->
          fst (fst x) = fst (fst y) -> (snd (fst x) <= snd (fst y))%Z)
    /\ Forall2 (fun item line => line_of env (lit "md") item = Return line)
         (map snd (Sorting.sort (combine keys items))) lines
    /\ stdout w'
       = stdout Sample.w0
           ++ Printer_.count_line cli_args (length items)
           :: (if (0 <? length items)%nat then [join [LF] lines] else []).
Proof.
  apply (@sort_flag_orders_stably
           (Sample.env (Return Sample.builds) PipeNone)
           (Sample.args "builds" "md" true false) Sample.days4
           (lit "builds") (lit "md") Sample.w0).
  vm_compute. reflexivity.
Defined.

(** ** Sorting twice *)

Lemma sort_key_fixed env item k w :
  fixed_key env item = Some k ->
  Printer_.sort_key env item w = (Return k, w).
Proof.
  unfold fixed_key, Printer_.sort_key. destruct item as [b | c]; simpl.
  - destruct (fixed_date env b) as [d |] eqn:E; [| discriminate].
    intros H. inversion H. subst. unfold bind, ret.
    now rewrite (date_fixed _ _ w E).
  - unfold bind, lift, ret, Commit_.date. rewrite package_run.
    destruct (fromisoformat env (ts c)); [discriminate |].
    intros H. inversion H. reflexivity.
Qed.

(** An item with the key it has when its date is fixed. *)
Lemma sorted_fixed env (dec : list (Sorting.key * Listable)) w :
  Forall (fun p => fixed_key env (snd p) = Some (fst p)) dec ->
  Sorting.sorted (Printer_.sort_key env) (map snd dec) w
  = (Return (map snd (Sorting.sort dec)), w).
Proof.
  intros H. unfold Sorting.sorted.
  assert (Hkeys : mapM (Printer_.sort_key env) (map snd dec) w
                  = (Return (map fst dec), w)).
  { induction H as [| [k item] dec Hk Hdec IH]; [reflexivity |]. simpl in *.
    rewrite (@bind_run _ _ _ _ _ _ _ (sort_key_fixed _ _ w Hk)).
    rewrite (@bind_run _ _ _ _ _ _ _ IH). reflexivity. }
  rewrite (@bind_run _ _ _ _ _ _ _ Hkeys). unfold ret. repeat f_equal.
  clear. induction dec as [| [k item] dec IH]; [reflexivity |].
  simpl. now rewrite IH.
Qed.

(** X21. On items whose dates do not depend on the clock (builds with
    a [finished] that can be read, commits with a time stamp that can be
    read), [sorted] with the key of the report returns without touching
    the world, and sorting its result again returns that result
    unchanged. *)
Theorem sorted_twice_fixed_dates env (items : list Listable) w :
  Forall (fun item => fixed_key env item <> None) items ->
  exists out,
    Sorting.sorted (Printer_.sort_key env) items w = (Return out, w)
    /\ Permutation items out
    /\ Sorting.sorted (Printer_.sort_key env) out w = (Return out, w).
Proof.
  intros H.
  assert (Hdec : exists dec,
             map snd dec = items
             /\ Forall (fun p => fixed_key env (snd p) = Some (fst p)) dec).
  { induction H as [| item items Hi His (dec & <- & Hdec)].
    - exists []. split; [reflexivity | constructor].
    - destruct (fixed_key env item) as [k |] eqn:E; [| congruence].
      exists ((k, item) :: dec). split; [reflexivity |].
      constructor; assumption. }
  destruct Hdec as (dec & <- & Hdec).
  exists (map snd (Sorting.sort dec)).
  assert (Hsorted : Forall (fun p => fixed_key env (snd p) = Some (fst p))
                      (Sorting.sort dec)).
  { rewrite Forall_forall in *. intros p Hp. apply Hdec.
    eapply Permutation_in; [symmetry; apply sort_perm | exact Hp]. }
  split; [now apply sorted_fixed |].
  split; [apply Permutation_map, sort_perm |].
  rewrite (sorted_fixed _ w Hsorted).
  now rewrite (sort_fixes_sorted (sort_sorted dec)).
Qed.

(** X21 on three finished builds of the sample feed. *)
Lemma sorted_twice_fixed_dates_witness :
  let env := Sample.env (Return SampleLog.finished_builds) PipeNone in
  let items := map OfBuild [Sample.vim91; Sample.vim90; Sample.nano70] in
  exists out,
    Sorting.sorted (Printer_.sort_key env) items Sample.w0
    = (Return out, Sample.w0)
    /\ Permutation items out
    /\ Sorting.sorted (Printer_.sort_key env) out Sample.w0
       = (Return out, Sample.w0).
Proof.
  apply (@sorted_twice_fixed_dates
           (Sample.env (Return SampleLog.finished_builds) PipeNone)
           (map OfBuild [Sample.vim91; Sample.vim90; Sample.nano70])
           Sample.w0).
  repeat constructor; vm_compute; discriminate.
Defined.
